(** * PR-Radar (app.py): a shallow embedding of the ingestion and triage core

    The development follows [src/app.py].  Python values are modelled as
    follows.

    - [str] is a list of Unicode code points (a Python string is a sequence
      of code points, and [in], [strip], [split] and the regular expression
      [[가-힣]] all work on code points);
    - [datetime] and [timedelta] are integers counting microseconds;
    - the session state is a record, and every handler is a function from
      state to state;
    - the dictionaries held in [inbox_articles] are shared objects: the
      sorted and filtered views built by [page_inbox] refer to the same
      objects, which is modelled by addressing an article through its
      position in [inbox_articles];
    - what the interpreter's libraries compute ([str.lower], [urlparse],
      [html.unescape], [datetime.strptime]) is a parameter, gathered in the
      record [Library]; what the outside world answers during one handler
      run (HTTP responses, [uuid4], the clock) is a parameter as well,
      gathered in the record [World]. *)

From Stdlib Require Import ZArith NArith List Lia.
From Stdlib Require Import Strings.String Strings.Ascii Strings.Byte.
From Stdlib Require Import Permutation Sorted.
From stdpp Require Import base decidable option list gmap.

Open Scope N_scope.

(** ** Python strings *)

Abbreviation str := (list N).

(** UTF-8 decoding, used only to write string constants of the source
    legibly: [py "yna"] is the code point sequence of the literal. *)
Fixpoint utf8_decode (bs : list N) : str :=
  match bs with
  | [] => []
  | b0 :: t0 =>
      if b0 <? 0x80 then b0 :: utf8_decode t0
      else
        match t0 with
        | [] => [b0]
        | b1 :: t1 =>
            if b0 <? 0xE0 then ((b0 mod 32) * 64 + b1 mod 64) :: utf8_decode t1
            else
              match t1 with
              | [] => [b0; b1]
              | b2 :: t2 =>
                  if b0 <? 0xF0 then
                    ((b0 mod 16) * 4096 + (b1 mod 64) * 64 + b2 mod 64)
                      :: utf8_decode t2
                  else
                    match t2 with
                    | [] => [b0; b1; b2]
                    | b3 :: t3 =>
                        ((b0 mod 8) * 262144 + (b1 mod 64) * 4096
                         + (b2 mod 64) * 64 + b3 mod 64) :: utf8_decode t3
                    end
              end
        end
  end.

Definition py (s : string) : str :=
  utf8_decode (List.map Byte.to_N (list_byte_of_string s)).

(** [str.isspace] on one code point (the characters [strip] removes). *)
Definition is_space (c : N) : bool :=
  ((9 <=? c) && (c <=? 13)) || ((28 <=? c) && (c <=? 32))
  || (c =? 0x85) || (c =? 0xA0) || (c =? 0x1680)
  || ((0x2000 <=? c) && (c <=? 0x200A))
  || (c =? 0x2028) || (c =? 0x2029) || (c =? 0x202F) || (c =? 0x205F)
  || (c =? 0x3000).

Fixpoint lstrip (s : str) : str :=
  match s with
  | [] => []
  | c :: t => if is_space c then lstrip t else s
  end.

Definition rstrip (s : str) : str := rev (lstrip (rev s)).

(** [s.strip()] *)
Definition strip (s : str) : str := rstrip (lstrip s).

Fixpoint str_eqb (a b : str) : bool :=
  match a, b with
  | [], [] => true
  | x :: a', y :: b' => (x =? y) && str_eqb a' b'
  | _, _ => false
  end.

Fixpoint starts_with (p s : str) : bool :=
  match p, s with
  | [], _ => true
  | _ :: _, [] => false
  | a :: p', b :: s' => (a =? b) && starts_with p' s'
  end.

(** [p in s] for strings: [p] occurs as a contiguous run of [s]. *)
Fixpoint contains (p s : str) : bool :=
  starts_with p s
  || match s with
     | [] => false
     | _ :: s' => contains p s'
     end.

(** [s.replace(" ", "")] *)
Definition remove_spaces (s : str) : str :=
  List.filter (fun c => negb (c =? 32)) s.

(** [s.replace(pat, "")] for a non-empty [pat]: occurrences are removed
    from left to right, without overlap.  [skip] counts the characters of
    the occurrence being removed that are still to be dropped. *)
Fixpoint remove_all_from (pat : str) (skip : nat) (s : str) : str :=
  match s with
  | [] => []
  | c :: t =>
      match skip with
      | S k => remove_all_from pat k t
      | O =>
          if starts_with pat s then remove_all_from pat (length pat - 1) t
          else c :: remove_all_from pat 0 t
      end
  end.

Definition remove_all (pat s : str) : str := remove_all_from pat 0 s.

(** [s.split(sep)] for a one-character separator; [cur] is the part being
    read, in reverse. *)
Fixpoint split_from (sep : N) (cur : str) (s : str) : list str :=
  match s with
  | [] => [rev cur]
  | c :: t =>
      if c =? sep then rev cur :: split_from sep [] t
      else split_from sep (c :: cur) t
  end.

Definition split (sep : N) (s : str) : list str := split_from sep [] s.

(** [sep.join(parts)] *)
Fixpoint join (sep : str) (parts : list str) : str :=
  match parts with
  | [] => []
  | [p] => p
  | p :: rest => p ++ sep ++ join sep rest
  end.

(** [re.search(r"[가-힣]", s)]: some code point lies in U+AC00..U+D7A3. *)
Definition is_hangul (c : N) : bool := (0xAC00 <=? c) && (c <=? 0xD7A3).
Definition has_korean (s : str) : bool := existsb is_hangul s.

(** Truthiness of a string: [if s]. *)
Definition nonempty (s : str) : bool :=
  match s with [] => false | _ :: _ => true end.

(** ** Library and world parameters *)

Abbreviation datetime := Z (only parsing).
Abbreviation timedelta := Z (only parsing).

Record Library := {
  (** [s.lower()] *)
  str_lower : str -> str;
  (** [urlparse(link).netloc]; [None] when [urlparse] raises *)
  urlparse_netloc : str -> option str;
  (** [html.unescape(s)] *)
  html_unescape : str -> str;
  (** [datetime.strptime(v, "%a, %d %b %Y %H:%M:%S %z").replace(tzinfo=None)];
      [None] when it raises [ValueError] *)
  strptime_naver : str -> option datetime
}.

(** A concrete library, for running the model on examples: lower-casing
    of the ASCII letters, and the network location of a URL of the form
    [scheme://host/...]. *)
Definition ascii_lower_char (c : N) : N :=
  if (65 <=? c) && (c <=? 90) then c + 32 else c.
Definition ascii_lower (s : str) : str := List.map ascii_lower_char s.

Fixpoint take_host (s : str) : str :=
  match s with
  | [] => []
  | c :: t => if (c =? 47) || (c =? 63) || (c =? 35) then [] else c :: take_host t
  end.

Fixpoint after_slashes (s : str) : option str :=
  match s with
  | [] => None
  | c :: t =>
      if starts_with [47; 47] s then Some (List.tl t) else after_slashes t
  end.

Definition simple_netloc (link : str) : option str :=
  match after_slashes link with
  | Some rest => Some (take_host rest)
  | None => Some []
  end.

Definition demo_library : Library := {|
  str_lower := ascii_lower;
  urlparse_netloc := simple_netloc;
  html_unescape := fun s => s;
  strptime_naver := fun _ => None
|}.

(** ** Constants of the module *)

Definition NEGATIVE_KEYWORDS : list str :=
  [py "논란"; py "소송"; py "구설"; py "불매"; py "갑질"; py "사과문"].

(** A [dict] literal iterates in the order it is written. *)
Definition PRESS_NAME_MAP : list (str * str) :=
  [ (py "yna", py "연합뉴스");
    (py "yonhap", py "연합뉴스");
    (py "mk", py "매일경제");
    (py "hankyung", py "한국경제");
    (py "mt", py "머니투데이");
    (py "sedaily", py "서울경제");
    (py "etnews", py "전자신문");
    (py "heraldcorp", py "헤럴드경제");
    (py "chosunbiz", py "조선비즈");
    (py "asiae", py "아시아경제") ].

Definition UNKNOWN_PRESS : str := py "언론사 미상".

(** ** Press-name normalisation *)

Section Normalizer.
Variable L : Library.

(** [guess_press_from_link] *)
Definition guess_press_from_link (link : str) : str :=
  match urlparse_netloc L link with
  | None => UNKNOWN_PRESS
  | Some netloc =>
      let host := remove_all (py "www.") (str_lower L netloc) in
      if negb (nonempty host) then UNKNOWN_PRESS
      else
        let parts := split 46 host in
        if (2 <=? length parts)%nat
        then nth (length parts - 2) parts []
        else host
  end.

(** The loop [for key, ko_name in PRESS_NAME_MAP.items(): if key in s:
    return ko_name], as the first entry whose key occurs in [s]. *)
Fixpoint first_alias (table : list (str * str)) (s : str) : option str :=
  match table with
  | [] => None
  | (key, ko_name) :: rest =>
      if contains key s then Some ko_name else first_alias rest s
  end.

(** [normalize_press_name] *)
Definition normalize_press_name (raw_press : str) (link : str) : str :=
  let value := strip raw_press in
  if nonempty value && has_korean value then value
  else
    let lower_value := remove_spaces (str_lower L value) in
    match first_alias PRESS_NAME_MAP lower_value with
    | Some ko_name => ko_name
    | None =>
        let host_guess := guess_press_from_link link in
        let lower_host_guess := remove_spaces (str_lower L host_guess) in
        match first_alias PRESS_NAME_MAP lower_host_guess with
        | Some ko_name => ko_name
        | None => if nonempty value then value else host_guess
        end
    end.
End Normalizer.

(** ** Data model *)

(** The dictionary built by [make_article]. *)
Record Article := {
  art_id : str;
  art_title : str;
  art_press : str;
  art_published_at : datetime;
  art_link : str;
  art_summary : str;
  art_query_keyword : str;
  art_is_negative : bool;
  art_negative_hits : str;
  art_collected_at : datetime
}.

(** [article["press"] = p] *)
Definition set_press (a : Article) (p : str) : Article :=
  {| art_id := art_id a;
     art_title := art_title a;
     art_press := p;
     art_published_at := art_published_at a;
     art_link := art_link a;
     art_summary := art_summary a;
     art_query_keyword := art_query_keyword a;
     art_is_negative := art_is_negative a;
     art_negative_hits := art_negative_hits a;
     art_collected_at := art_collected_at a |}.

(** The dictionary appended to [saved_articles] by [page_inbox]. *)
Record SavedArticle := {
  saved_id : str;
  article_id : str;
  folder : str;
  saved_at : datetime;
  saved_title : str;
  saved_press : str;
  saved_published_at : datetime;
  saved_link : str;
  saved_summary : str;
  saved_negative_hits : str
}.

(** [saved["folder"] = f] *)
Definition set_folder (s : SavedArticle) (f : str) : SavedArticle :=
  {| saved_id := saved_id s;
     article_id := article_id s;
     folder := f;
     saved_at := saved_at s;
     saved_title := saved_title s;
     saved_press := saved_press s;
     saved_published_at := saved_published_at s;
     saved_link := saved_link s;
     saved_summary := saved_summary s;
     saved_negative_hits := saved_negative_hits s |}.

(** An entry of [st.session_state.alerts]. *)
Record Alert := {
  alert_time : datetime;
  alert_message : str
}.

(** [st.session_state], restricted to the keys the handlers below use. *)
Record State := {
  keywords : list str;
  folders : list str;
  inbox_articles : list Article;
  saved_articles : list SavedArticle;
  alerts : list Alert;
  auto_collect_enabled : bool;
  last_auto_collect_at : datetime
}.

Definition set_inbox_articles (st : State) (v : list Article) : State :=
  {| keywords := keywords st; folders := folders st; inbox_articles := v;
     saved_articles := saved_articles st; alerts := alerts st;
     auto_collect_enabled := auto_collect_enabled st;
     last_auto_collect_at := last_auto_collect_at st |}.

Definition set_saved_articles (st : State) (v : list SavedArticle) : State :=
  {| keywords := keywords st; folders := folders st;
     inbox_articles := inbox_articles st;
     saved_articles := v; alerts := alerts st;
     auto_collect_enabled := auto_collect_enabled st;
     last_auto_collect_at := last_auto_collect_at st |}.

Definition set_folders (st : State) (v : list str) : State :=
  {| keywords := keywords st; folders := v;
     inbox_articles := inbox_articles st;
     saved_articles := saved_articles st; alerts := alerts st;
     auto_collect_enabled := auto_collect_enabled st;
     last_auto_collect_at := last_auto_collect_at st |}.

Definition set_alerts (st : State) (v : list Alert) : State :=
  {| keywords := keywords st; folders := folders st;
     inbox_articles := inbox_articles st;
     saved_articles := saved_articles st; alerts := v;
     auto_collect_enabled := auto_collect_enabled st;
     last_auto_collect_at := last_auto_collect_at st |}.

Definition set_last_auto_collect_at (st : State) (v : datetime) : State :=
  {| keywords := keywords st; folders := folders st;
     inbox_articles := inbox_articles st;
     saved_articles := saved_articles st; alerts := alerts st;
     auto_collect_enabled := auto_collect_enabled st;
     last_auto_collect_at := v |}.

(** One element of [payload["items"]]; a key that is absent is [None]. *)
Record Item := {
  item_originallink : option str;
  item_link : option str;
  item_title : option str;
  item_description : option str;
  item_source : option str;
  item_pubDate : option str
}.

(** What the outside world answers during one run of a handler. *)
Record World := {
  NAVER_CLIENT_ID : str;
  NAVER_CLIENT_SECRET : str;
  (** [requests.get] for the [k]-th keyword of the run, followed by
      [raise_for_status], [json()] and [payload.get("items", [])];
      [None] when a [requests.RequestException] is raised *)
  fetch_items : nat -> str -> option (list Item);
  (** [str(uuid.uuid4())[:8]] for the [k]-th record created in the run *)
  uuid4 : nat -> str;
  (** [datetime.now()] read by [parse_naver_pub_date] when the date of the
      [k]-th record does not parse *)
  now_fallback : nat -> datetime;
  (** [datetime.now()] stamped on the [k]-th record created in the run *)
  now_stamp : nat -> datetime
}.

(** The second component of the result of [collect_news_from_naver]. *)
Inductive Source := api | no_key | error.

(** ** Time *)

Definition timedelta_days (d : Z) : timedelta := (d * 86400000000)%Z.
Definition timedelta_hours (h : Z) : timedelta := (h * 3600000000)%Z.

(** ** Sorting *)

(** [sorted(l, key=key, reverse=True)]: a stable sort, largest key first;
    items with equal keys keep the order they have in [l]. *)
Fixpoint insert_desc {A} (key : A -> Z) (x : A) (l : list A) : list A :=
  match l with
  | [] => [x]
  | y :: l' =>
      if (key x <? key y)%Z then y :: insert_desc key x l' else x :: l
  end.

Fixpoint sorted_desc {A} (key : A -> Z) (l : list A) : list A :=
  match l with
  | [] => []
  | x :: l' => insert_desc key x (sorted_desc key l')
  end.

(** Largest key first. *)
Definition desc {A} (key : A -> Z) (x y : A) : Prop := (key y <= key x)%Z.

(** ** Article factory *)

(** [make_article]; [uid] and [now] are the values [uuid.uuid4] and
    [datetime.now] give when the record is built. *)
Definition make_article (uid : str) (now : datetime)
    (title press : str) (published_at : datetime)
    (link summary query_keyword : str) : Article :=
  let hit_keywords :=
    List.filter (fun kw => contains kw title || contains kw summary)
      NEGATIVE_KEYWORDS in
  {| art_id := uid;
     art_title := title;
     art_press := press;
     art_published_at := published_at;
     art_link := link;
     art_summary := summary;
     art_query_keyword := query_keyword;
     art_is_negative := (0 <? length hit_keywords)%nat;
     art_negative_hits :=
       match hit_keywords with
       | [] => []
       | _ => join (py ", ") hit_keywords
       end;
     art_collected_at := now |}.

(** ** Staging store: expiry and alerts *)

(** [purge_old_inbox(days)], run when the clock reads [now]. *)
Definition purge_old_inbox (now : datetime) (days : Z) (st : State) : State :=
  let threshold := (now - timedelta_days days)%Z in
  set_inbox_articles st
    (List.filter (fun a => (threshold <=? art_collected_at a)%Z)
       (inbox_articles st)).

Definition alert_of (article : Article) : Alert :=
  {| alert_time := art_published_at article;
     alert_message :=
       py "[경고] 부정 키워드(" ++ art_negative_hits article
         ++ py ") 감지 - " ++ art_title article |}.

(** [refresh_alerts] *)
Definition refresh_alerts (st : State) : State :=
  let items := List.map alert_of (List.filter art_is_negative (inbox_articles st)) in
  set_alerts st (sorted_desc alert_time items).

(** ** Ingestion *)

Section Ingestion.
Variable L : Library.
Variable W : World.

(** [naver_api_ready] *)
Definition naver_api_ready : bool :=
  nonempty (NAVER_CLIENT_ID W) && nonempty (NAVER_CLIENT_SECRET W).

(** [re.sub(r"<[^>]+>", "", text)].  A match starts at a [<] that is
    followed by at least one character other than [>] and, later, by a
    [>]; it ends at the first [>].  [inside] tells that a match is being
    dropped. *)
Definition tag_ahead (t : str) : bool :=
  match t with
  | [] => false
  | d :: _ => negb (d =? 62) && existsb (fun c => c =? 62) t
  end.

Fixpoint strip_tags (inside : bool) (s : str) : str :=
  match s with
  | [] => []
  | c :: t =>
      if inside then strip_tags (negb (c =? 62)) t
      else if (c =? 60) && tag_ahead t then strip_tags true t
      else c :: strip_tags false t
  end.

(** [clean_html] *)
Definition clean_html (text : str) : str :=
  strip (html_unescape L (strip_tags false text)).

(** [parse_naver_pub_date]; [now] is the clock read in the handler of
    [ValueError]. *)
Definition parse_naver_pub_date (now : datetime) (value : str) : datetime :=
  match strptime_naver L value with
  | Some d => d
  | None => now
  end.

(** [item.get("originallink") or item.get("link") or ""] *)
Definition resolved_link (item : Item) : str :=
  match item_originallink item with
  | Some (c :: l) => c :: l
  | _ =>
      match item_link item with
      | Some (c :: l) => c :: l
      | _ => []
      end
  end.

(** The variables the loops of [collect_news_from_naver] update. *)
Record Collect := {
  c_inbox : list Article;
  c_existing_links : gset str;
  c_added : nat
}.

(** The body of [for item in items]. *)
Definition collect_item (keyword : str) (c : Collect) (item : Item) : Collect :=
  let link := resolved_link item in
  if negb (nonempty link) || bool_decide (link ∈ c_existing_links c) then c
  else
    let title := clean_html (default (py "제목 없음") (item_title item)) in
    let summary := clean_html (default [] (item_description item)) in
    let press_raw := clean_html (default [] (item_source item)) in
    let press := normalize_press_name L press_raw link in
    let published_at :=
      parse_naver_pub_date (now_fallback W (c_added c))
        (default [] (item_pubDate item)) in
    let article :=
      make_article (uuid4 W (c_added c)) (now_stamp W (c_added c))
        title press published_at link summary keyword in
    {| c_inbox := article :: c_inbox c;
       c_existing_links := {[ link ]} ∪ c_existing_links c;
       c_added := S (c_added c) |}.

(** [for keyword in keywords], from the [k]-th keyword on.  The second
    component is [false] when a request raised: the loop is left at that
    point, with whatever the earlier iterations did. *)
Fixpoint collect_keywords (k : nat) (kws : list str) (c : Collect)
  : Collect * bool :=
  match kws with
  | [] => (c, true)
  | keyword :: rest =>
      match fetch_items W k keyword with
      | None => (c, false)
      | Some items =>
          collect_keywords (S k) rest (fold_left (collect_item keyword) items c)
      end
  end.

(** [collect_news_from_naver] *)
Definition collect_news_from_naver (st : State) : State * (nat * Source) :=
  if negb naver_api_ready then (st, (0%nat, no_key))
  else
    let kws :=
      match keywords st with
      | [] => [py "삼성화재"]
      | _ => keywords st
      end in
    let c0 :=
      {| c_inbox := inbox_articles st;
         c_existing_links := list_to_set (List.map art_link (inbox_articles st));
         c_added := 0 |} in
    let (c, ok) := collect_keywords 0 kws c0 in
    (set_inbox_articles st (c_inbox c),
     if ok then (c_added c, api) else (0%nat, error)).

(** ** Scheduler *)

(** [run_hourly_auto_collect], where [now] is the clock read by the
    handler. *)
Definition run_hourly_auto_collect (now : datetime) (st : State) : State :=
  if negb (auto_collect_enabled st) then st
  else if negb naver_api_ready then st
  else if (timedelta_hours 1 <=? now - last_auto_collect_at st)%Z then
    let (st1, _) := collect_news_from_naver st in
    let st2 := refresh_alerts st1 in
    set_last_auto_collect_at st2 now
  else st.

(** The sidebar button that collects at once, in [draw_sidebar]. *)
Definition manual_collect (st : State) : State :=
  let (st1, _) := collect_news_from_naver st in
  refresh_alerts st1.

End Ingestion.

(** The sidebar button that empties the inbox, in [draw_sidebar]. *)
Definition clear_inbox (st : State) : State :=
  set_alerts (set_inbox_articles st []) [].

(** ** Promotion into the archive ([page_inbox]) *)

(** A row of the table returned by [st.data_editor]. *)
Record EditorRow := {
  row_selected : bool;
  row_press : str;
  row_id : str
}.

(** What the user did to one row of the table: tick its box, and maybe
    type another press name. *)
Record RowEdit := {
  ticked : bool;
  typed_press : option str
}.

Definition ALL_LABEL : str := py "전체".

Section Promotion.
Variable L : Library.
Variable W : World.

(** [inbox_sorted], each article with its position in [inbox_articles]:
    the sorted list holds the very objects of the inbox. *)
Definition inbox_sorted (inbox : list Article) : list (nat * Article) :=
  sorted_desc (fun p => art_published_at (snd p)) (imap pair inbox).

(** [filtered_articles] of the tab [label]. *)
Definition filtered_articles (label : str) (inbox : list Article)
  : list (nat * Article) :=
  if bool_decide (label = ALL_LABEL) then inbox_sorted inbox
  else
    List.filter (fun p => bool_decide (art_query_keyword (snd p) = label))
      (inbox_sorted inbox).

(** [current_editor]: [table_data] after the user's edits; [user k] is
    what the user did to row [k]. *)
Definition current_editor (user : nat -> RowEdit)
    (filtered : list (nat * Article)) : list EditorRow :=
  imap (fun k p =>
          let a := snd p in
          {| row_selected := ticked (user k);
             row_press :=
               default (normalize_press_name L (art_press a) (art_link a))
                 (typed_press (user k));
             row_id := art_id a |})
    filtered.

(** [edited_rows_by_id.get(i)]: in a dictionary built by comprehension the
    last row with a given key stays. *)
Definition edited_row (rows : list EditorRow) (i : str) : option EditorRow :=
  List.find (fun r => bool_decide (row_id r = i)) (rev rows).

(** The variables the loop [for article in filtered_articles] updates. *)
Record Saving := {
  s_inbox : list Article;
  s_saved : list SavedArticle;
  s_saved_count : nat
}.

(** The body of [for article in filtered_articles]; [pos] is the position
    of [article] in the inbox. *)
Definition save_article (target_folder : str) (rows : list EditorRow)
    (selected_ids : list str) (existing_ids : gset str)
    (s : Saving) (pos : nat) : Saving :=
  match s_inbox s !! pos with
  | None => s
  | Some article =>
      if bool_decide (art_id article ∈ selected_ids)
         && negb (bool_decide (art_id article ∈ existing_ids))
      then
        let edited_press :=
          strip (match edited_row rows (art_id article) with
                 | Some r => row_press r
                 | None => art_press article
                 end) in
        let final_press :=
          if nonempty edited_press
          then normalize_press_name L edited_press (art_link article)
          else normalize_press_name L (art_press article) (art_link article) in
        {| s_inbox := <[pos := set_press article final_press]> (s_inbox s);
           s_saved :=
             s_saved s ++
             [ {| saved_id := uuid4 W (s_saved_count s);
                  article_id := art_id article;
                  folder := target_folder;
                  saved_at := now_stamp W (s_saved_count s);
                  saved_title := art_title article;
                  saved_press := final_press;
                  saved_published_at := art_published_at article;
                  saved_link := art_link article;
                  saved_summary := art_summary article;
                  saved_negative_hits := art_negative_hits article |} ];
           s_saved_count := S (s_saved_count s) |}
      else s
  end.

(** [page_inbox] when the save button of the tab [label] is pressed. *)
Definition page_inbox_save (label target_folder : str)
    (user : nat -> RowEdit) (st : State) : State :=
  match inbox_articles st with
  | [] => st
  | _ =>
      let filtered := filtered_articles label (inbox_articles st) in
      match filtered with
      | [] => st
      | _ =>
          let rows := current_editor user filtered in
          let selected_ids :=
            List.map row_id (List.filter row_selected rows) in
          match selected_ids with
          | [] => st
          | _ =>
              let existing_ids : gset str :=
                list_to_set (List.map article_id (saved_articles st)) in
              let s :=
                fold_left
                  (save_article target_folder rows selected_ids existing_ids)
                  (List.map fst filtered)
                  {| s_inbox := inbox_articles st;
                     s_saved := saved_articles st;
                     s_saved_count := 0 |} in
              set_saved_articles (set_inbox_articles st (s_inbox s)) (s_saved s)
          end
      end
  end.

End Promotion.

(** ** Folder deletion ([page_saved_db]) *)

Definition FALLBACK_FOLDER : str := py "미분류".

(** [page_saved_db] when the delete button is pressed with the folders
    [removable_folders] chosen and the box [delete_with_articles]. *)
Definition delete_folders (removable_folders : list str)
    (delete_with_articles : bool) (st : State) : State :=
  match removable_folders with
  | [] => st
  | _ =>
      let st1 :=
        if delete_with_articles then
          set_saved_articles st
            (List.filter
               (fun s => negb (bool_decide (folder s ∈ removable_folders)))
               (saved_articles st))
        else
          let st0 :=
            if bool_decide (FALLBACK_FOLDER ∈ folders st) then st
            else set_folders st (folders st ++ [FALLBACK_FOLDER]) in
          set_saved_articles st0
            (List.map
               (fun saved =>
                  if bool_decide (folder saved ∈ removable_folders)
                  then set_folder saved FALLBACK_FOLDER
                  else saved)
               (saved_articles st0)) in
      let remaining :=
        List.filter (fun f => negb (bool_decide (f ∈ removable_folders)))
          (folders st1) in
      set_folders st1
        (match remaining with
         | [] => [FALLBACK_FOLDER]
         | _ => remaining
         end)
  end.

(** ** The prologue of [main] *)

Section Main.
Variable L : Library.
Variable W : World.

(** [run_hourly_auto_collect(); purge_old_inbox(days=7); refresh_alerts()]
    as [main] runs them on every render, once the state is initialised;
    [now_tick] and [now_purge] are the two readings of the clock. *)
Definition main_prologue (now_tick now_purge : datetime) (st : State)
  : State :=
  refresh_alerts
    (purge_old_inbox now_purge 7 (run_hourly_auto_collect L W now_tick st)).

End Main.

(** ** Keywords ([draw_sidebar]) *)

Definition set_keywords (st : State) (v : list str) : State :=
  {| keywords := v; folders := folders st;
     inbox_articles := inbox_articles st;
     saved_articles := saved_articles st; alerts := alerts st;
     auto_collect_enabled := auto_collect_enabled st;
     last_auto_collect_at := last_auto_collect_at st |}.

(** The button that adds the keyword typed in [new_keyword]. *)
Definition add_keyword (new_keyword : str) (st : State) : State :=
  let cleaned := strip new_keyword in
  if negb (nonempty cleaned) then st
  else if bool_decide (cleaned ∈ keywords st) then st
  else set_keywords st (keywords st ++ [cleaned]).

(** The button that deletes the ticked keywords; [is_checked kw] is the
    state of the check box of [kw]. *)
Definition delete_keywords (is_checked : str -> bool) (st : State) : State :=
  match keywords st with
  | [] => st
  | _ =>
      let checked_to_delete := List.filter is_checked (keywords st) in
      match checked_to_delete with
      | [] => st
      | _ =>
          set_keywords st
            (List.filter
               (fun kw => negb (bool_decide (kw ∈ checked_to_delete)))
               (keywords st))
      end
  end.

(** ** Folders and saved articles ([page_saved_db]), further *)

(** The button that adds the folder typed in [new_folder]. *)
Definition add_folder (new_folder : str) (st : State) : State :=
  let cleaned_folder := strip new_folder in
  if negb (nonempty cleaned_folder) then st
  else if bool_decide (cleaned_folder ∈ folders st) then st
  else set_folders st (folders st ++ [cleaned_folder]).

(** The button that deletes the saved articles ticked in the table. *)
Definition delete_saved (selected_saved_ids : list str) (st : State) : State :=
  match selected_saved_ids with
  | [] => st
  | _ =>
      set_saved_articles st
        (List.filter
           (fun s => negb (bool_decide (saved_id s ∈ selected_saved_ids)))
           (saved_articles st))
  end.

(** ** Dashboard ([page_dashboard]) *)

(** [recent]: the five latest published articles of the inbox. *)
Definition dashboard_recent (st : State) : list Article :=
  take 5 (sorted_desc art_published_at (inbox_articles st)).

(** [st.session_state.alerts[:5]] *)
Definition dashboard_alerts (st : State) : list Alert :=
  take 5 (alerts st).

(** ** Correction requests ([page_saved_db], [page_correction_tracking]) *)

(** An entry of [st.session_state.correction_items]. *)
Record CorrectionItem := {
  corr_id : str;
  corr_article_id : str;
  corr_published_at : datetime;
  corr_press : str;
  corr_title : str;
  corr_link : str;
  corr_status : str;
  corr_memo : str
}.

(** [item["status"] = status; item["memo"] = memo] *)
Definition set_status_memo (item : CorrectionItem) (status memo : str)
  : CorrectionItem :=
  {| corr_id := corr_id item;
     corr_article_id := corr_article_id item;
     corr_published_at := corr_published_at item;
     corr_press := corr_press item;
     corr_title := corr_title item;
     corr_link := corr_link item;
     corr_status := status;
     corr_memo := memo |}.

(** The options of the status radio, in their order. *)
Definition STATUS_OPTIONS : list str :=
  [py "요청됨"; py "수정완료"; py "확인불가"].

(** The button that files a correction request for the saved article
    [chosen], with the memo typed; [uid] is the id drawn for the entry. *)
Definition add_correction_item (uid : str) (chosen : SavedArticle)
    (memo : str) (items : list CorrectionItem) : list CorrectionItem :=
  items ++
  [ {| corr_id := uid;
       corr_article_id := article_id chosen;
       corr_published_at := saved_published_at chosen;
       corr_press := saved_press chosen;
       corr_title := saved_title chosen;
       corr_link := saved_link chosen;
       corr_status := py "요청됨";
       corr_memo := memo |} ].

(** [options.index(status)]; [None] when [index] raises [ValueError]. *)
Fixpoint index_of (options : list str) (status : str) : option nat :=
  match options with
  | [] => None
  | o :: rest =>
      if bool_decide (o = status) then Some 0%nat
      else option_map S (index_of rest status)
  end.

(** What the user did to the widgets of one entry: pick an option of the
    radio by its index, type a memo; [None] leaves the widget at its
    initial value, and so does an index the radio does not offer. *)
Record EntryEdit := {
  picked_option : option nat;
  typed_memo : option str
}.

(** The body of the loop of [page_correction_tracking] for the entry at
    position [pos] of [correction_items], shown at rank [idx].  The radio
    starts at the index of the current status and returns one of its
    options.  The second component is [false] when [index] raises
    [ValueError]; the entries are then left as they are at that point. *)
Definition track_entry (user : nat -> str -> EntryEdit)
    (items : list CorrectionItem) (idx pos : nat)
  : list CorrectionItem * bool :=
  match items !! pos with
  | None => (items, true)
  | Some item =>
      match index_of STATUS_OPTIONS (corr_status item) with
      | None => (items, false)
      | Some initial =>
          let edit := user idx (corr_id item) in
          let chosen_index :=
            match picked_option edit with
            | Some i => if (i <? length STATUS_OPTIONS)%nat then i else initial
            | None => initial
            end in
          let status := nth chosen_index STATUS_OPTIONS [] in
          let memo := default (corr_memo item) (typed_memo edit) in
          (<[pos := set_status_memo item status memo]> items, true)
      end
  end.

(** The loop over [enumerate(sorted(correction_items, ...))], from rank
    [idx] on; [positions] are the positions in [correction_items] of the
    entries still to show. *)
Fixpoint track_entries (user : nat -> str -> EntryEdit) (idx : nat)
    (positions : list nat) (items : list CorrectionItem)
  : list CorrectionItem * bool :=
  match positions with
  | [] => (items, true)
  | pos :: rest =>
      let (items', ok) := track_entry user items idx pos in
      if ok then track_entries user (S idx) rest items' else (items', false)
  end.

(** The update part of [page_correction_tracking]: the entries are shown
    latest published first, and each is overwritten with the values of its
    widgets. *)
Definition page_correction_tracking (user : nat -> str -> EntryEdit)
    (items : list CorrectionItem) : list CorrectionItem * bool :=
  match items with
  | [] => (items, true)
  | _ =>
      track_entries user 0
        (List.map fst
           (sorted_desc (fun p => corr_published_at (snd p))
              (imap pair items)))
        items
  end.

(** ** Specification vocabulary *)

(** [p] occurs in [s] as a contiguous run. *)
Definition occurs_in (p s : str) : Prop := exists l1 l2, s = l1 ++ p ++ l2.

(** The entry [(key, ko_name)] of [table] is the first one, in the order
    of the table, whose key occurs in [s]. *)
Definition alias_applies (table : list (str * str)) (s key ko_name : str)
  : Prop :=
  exists before after,
    table = before ++ (key, ko_name) :: after
    /\ occurs_in key s
    /\ Forall (fun e => ~ occurs_in (fst e) s) before.

(** The links of the inbox are pairwise distinct, and [existing_links]
    knows all of them. *)
Definition links_tracked (c : Collect) : Prop :=
  NoDup (List.map art_link (c_inbox c))
  /\ forall l, l ∈ List.map art_link (c_inbox c) -> l ∈ c_existing_links c.

(** The press of the article is a result of the normaliser for its
    link. *)
Definition press_normalised (L : Library) (a : Article) : Prop :=
  exists raw_press,
    art_press a = normalize_press_name L raw_press (art_link a).

(** How the variables of a run stand after some iterations, compared with
    before: articles were put in front of the inbox, one per count, each
    with a link that is not empty and was not known, under a keyword of
    [kws], and with a normalised press; no known link was forgotten. *)
Definition extends_run (L : Library) (kws : list str) (c c' : Collect)
  : Prop :=
  exists new,
    c_inbox c' = new ++ c_inbox c
    /\ c_added c' = (length new + c_added c)%nat
    /\ Forall (fun a => art_link a <> []
                        /\ (art_link a ∉ c_existing_links c)
                        /\ In (art_query_keyword a) kws
                        /\ press_normalised L a) new
    /\ c_existing_links c ⊆ c_existing_links c'.

(** The alerts are what [refresh_alerts] computes from the inbox. *)
Definition alerts_fresh (st : State) : Prop :=
  alerts st
  = sorted_desc alert_time
      (List.map alert_of (List.filter art_is_negative (inbox_articles st))).

(** Every saved article lies in a folder of the folder list. *)
Definition folders_cover_saved (st : State) : Prop :=
  forall s, In s (saved_articles st) -> In (folder s) (folders st).

(** The article id [i] is ticked in the table and has no saved record. *)
Definition ticked_unsaved (selected_ids : list str) (existing_ids : gset str)
    (i : str) : bool :=
  bool_decide (i ∈ selected_ids) && negb (bool_decide (i ∈ existing_ids)).

(** Every entry has a status that the radio offers. *)
Definition statuses_valid (items : list CorrectionItem) : Prop :=
  Forall (fun item => In (corr_status item) STATUS_OPTIONS) items.

(** [item'] is [item] up to the fields [status] and [memo]. *)
Definition same_but_status_memo (item item' : CorrectionItem) : Prop :=
  item' = set_status_memo item (corr_status item') (corr_memo item').

(** The user touches no widget. *)
Definition untouched : EntryEdit :=
  {| picked_option := None; typed_memo := None |}.

(** [a'] is [a] up to the field [press]. *)
Definition same_but_press (a a' : Article) : Prop :=
  a' = set_press a (art_press a').

(** The saved record [r] carries the fields of the article [a]. *)
Definition snapshot_of (r : SavedArticle) (a : Article) : Prop :=
  article_id r = art_id a
  /\ saved_title r = art_title a
  /\ saved_press r = art_press a
  /\ saved_published_at r = art_published_at a
  /\ saved_link r = art_link a
  /\ saved_summary r = art_summary a
  /\ saved_negative_hits r = art_negative_hits a.

(** One press of the save button of [page_inbox], with what the world
    answers during it. *)
Record SaveClick := {
  click_world : World;
  click_label : str;
  click_folder : str;
  click_user : nat -> RowEdit
}.

(** A sequence of presses of the save button. *)
Definition page_inbox_saves (L : Library) (clicks : list SaveClick)
    (st : State) : State :=
  fold_left
    (fun st c =>
       page_inbox_save L (click_world c) (click_label c) (click_folder c)
         (click_user c) st)
    clicks st.

(** A concrete world and concrete records, for running the model. *)
Definition demo_world (responses : list (option (list Item))) : World := {|
  NAVER_CLIENT_ID := py "id";
  NAVER_CLIENT_SECRET := py "secret";
  fetch_items := fun k _ => nth k responses None;
  uuid4 := fun k => py "uuid" ++ [48 + N.of_nat k];
  now_fallback := fun _ => 0%Z;
  now_stamp := fun _ => 0%Z
|}.

Definition demo_item (link : string) : Item := {|
  item_originallink := Some (py link);
  item_link := None;
  item_title := Some (py "title");
  item_description := Some (py "summary");
  item_source := Some (py "press");
  item_pubDate := None
|}.

Definition demo_article (uid : string) (press : string) (link : string)
    (negative : bool) (published collected : datetime) : Article := {|
  art_id := py uid;
  art_title := py "title";
  art_press := py press;
  art_published_at := published;
  art_link := py link;
  art_summary := py "summary";
  art_query_keyword := py "kw";
  art_is_negative := negative;
  art_negative_hits := [];
  art_collected_at := collected
|}.

Definition demo_saved (sid uid fold : string) : SavedArticle := {|
  saved_id := py sid;
  article_id := py uid;
  folder := py fold;
  saved_at := 0%Z;
  saved_title := py "title";
  saved_press := py "press";
  saved_published_at := 0%Z;
  saved_link := py "https://example.com/a";
  saved_summary := py "summary";
  saved_negative_hits := []
|}.

Definition demo_state (inbox : list Article) (saved : list SavedArticle)
  : State := {|
  keywords := [py "A"; py "B"];
  folders := [py "보도자료"; py "기획기사"];
  inbox_articles := inbox;
  saved_articles := saved;
  alerts := [];
  auto_collect_enabled := true;
  last_auto_collect_at := 0%Z
|}.

(** An inbox of three articles, collected on days 0, 1 and 2 and published
    in the order [a0], [a2], [a1] from the latest, and an archive that
    already holds [a0]. *)
Definition demo_a0 : Article :=
  demo_article "a0" "연합뉴스" "https://example.com/0" true 30 0.
Definition demo_a1 : Article :=
  demo_article "a1" "Yonhap" "https://example.com/1" false 10
    (timedelta_days 1).
Definition demo_a2 : Article :=
  demo_article "a2" "매일경제" "https://example.com/2" true 20
    (timedelta_days 2).
Definition demo_inbox : list Article := [demo_a0; demo_a1; demo_a2].
Definition demo_archive : list SavedArticle :=
  [demo_saved "s0" "a0" "보도자료"; demo_saved "s1" "zz" "기획기사"].
Definition demo_st : State := demo_state demo_inbox demo_archive.

(** The user ticks the first row only, or every row, and types nothing;
    or ticks every row and types a press name in each. *)
Definition tick_first (k : nat) : RowEdit :=
  {| ticked := (k =? 0)%nat; typed_press := None |}.
Definition tick_all (k : nat) : RowEdit :=
  {| ticked := true; typed_press := None |}.
Definition tick_all_typing (press : string) (k : nat) : RowEdit :=
  {| ticked := true; typed_press := Some (py press) |}.

(** Two keywords: the first request brings an article, the second raises. *)
Definition demo_world_failing : World :=
  demo_world [Some [demo_item "https://example.com/1"]; None].

(** Two keywords whose answers repeat a link of the inbox and a link of the
    run. *)
Definition demo_world_repeating : World :=
  demo_world
    [Some [demo_item "https://example.com/0"; demo_item "https://example.com/9"];
     Some [demo_item "https://example.com/9"; demo_item "https://example.com/8"]].

(** An inbox whose presses are normalised, a state whose folder list
    holds the fallback folder, and two correction requests. *)
Definition demo_st_normalised : State :=
  demo_state [demo_a0; demo_a2] demo_archive.

Definition demo_st_fallback : State :=
  set_folders (demo_state [] [demo_saved "s0" "a0" "미분류"])
    [py "미분류"; py "보도자료"].

Definition demo_correction (uid status : string) (published : datetime)
  : CorrectionItem := {|
  corr_id := py uid;
  corr_article_id := py "a0";
  corr_published_at := published;
  corr_press := py "연합뉴스";
  corr_title := py "title";
  corr_link := py "https://example.com/0";
  corr_status := py status;
  corr_memo := []
|}.

Definition demo_corrections : list CorrectionItem :=
  [demo_correction "c0" "요청됨" 10; demo_correction "c1" "수정완료" 20].

(** The user sets the radio of every entry to its third option. *)
Definition pick_third (idx : nat) (uid : str) : EntryEdit :=
  {| picked_option := Some 2%nat; typed_memo := Some (py "memo") |}.

(** * Properties *)

(** ** The model at work *)

Example py_ascii : py "yna" = [121; 110; 97].
Proof. reflexivity. Qed.

Example py_hangul : py "가힣" = [0xAC00; 0xD7A3].
Proof. reflexivity. Qed.

Example strip_both_ends : strip (py "  MK News ") = py "MK News".
Proof. reflexivity. Qed.

Example contains_inside : contains (py "mt") (py "amtrak") = true.
Proof. reflexivity. Qed.

Example remove_all_www :
  remove_all (py "www.") (py "www.yna.co.kr") = py "yna.co.kr".
Proof. reflexivity. Qed.

Example split_host : split 46 (py "yna.co.kr") = [py "yna"; py "co"; py "kr"].
Proof. reflexivity. Qed.

Example strip_tags_bold :
  strip_tags false (py "<b>OO</b> news <> a < b") = py "OO news <> a < b".
Proof. reflexivity. Qed.

Example sorted_desc_stable :
  sorted_desc fst [(1, 10); (3, 20); (1, 30); (3, 40); (2, 50)]%Z
  = [(3, 20); (3, 40); (2, 50); (1, 10); (1, 30)]%Z.
Proof. reflexivity. Qed.

Example guess_second_last_label :
  guess_press_from_link demo_library (py "https://www.yna.co.kr/view/1")
  = py "co".
Proof. vm_compute. reflexivity. Qed.

Example guess_no_host :
  guess_press_from_link demo_library (py "news/1") = UNKNOWN_PRESS.
Proof. vm_compute. reflexivity. Qed.

Example normalize_by_host :
  normalize_press_name demo_library [] (py "http://news.mt.co.kr/x")
  = py "co".
Proof. vm_compute. reflexivity. Qed.

Example normalize_by_host_alias :
  normalize_press_name demo_library [] (py "https://www.hankyung.com/x")
  = py "한국경제".
Proof. vm_compute. reflexivity. Qed.

Example make_article_negative :
  let a :=
    make_article (py "id") 0 (py "OO테크 협력사와 소송 가능성 제기")
      (py "머니투데이") 0 (py "https://example.com/3") (py "구설 해명") (py "OO테크")
  in
  art_is_negative a = true /\ art_negative_hits a = py "소송, 구설".
Proof. vm_compute. split; reflexivity. Qed.

(** ** Strings *)

Lemma starts_with_prefix (p s : str) :
  starts_with p s = true <-> exists l2, s = p ++ l2.
Proof.
  revert s. induction p as [|a p IH]; intros s; simpl.
  - split; [intros _; exists s; reflexivity | reflexivity].
  - destruct s as [|b s].
    + split; [discriminate | intros [l2 H]; discriminate].
    + rewrite andb_true_iff, N.eqb_eq, IH. split.
      * intros [-> [l2 ->]]. exists l2. reflexivity.
      * intros [l2 H]. injection H as -> ->. split; [reflexivity | eauto].
Qed.

Lemma contains_occurs_in (p s : str) :
  contains p s = true <-> occurs_in p s.
Proof.
  unfold occurs_in. induction s as [|c s IH].
  - simpl. rewrite orb_false_r, starts_with_prefix. split.
    + intros [l2 H]. exists [], l2. exact H.
    + intros [l1 [l2 H]]. destruct l1; [exists l2; exact H | discriminate].
  - simpl. rewrite orb_true_iff, IH, starts_with_prefix. split.
    + intros [[l2 H] | [l1 [l2 H]]].
      * exists [], l2. exact H.
      * exists (c :: l1), l2. simpl. rewrite H. reflexivity.
    + intros [l1 [l2 H]]. destruct l1 as [|d l1].
      * left. exists l2. exact H.
      * right. injection H as -> H. exists l1, l2. exact H.
Qed.

Lemma contains_false_not_occurs (p s : str) :
  contains p s = false <-> ~ occurs_in p s.
Proof.
  rewrite <- contains_occurs_in. destruct (contains p s); split; intros H;
    try reflexivity; try discriminate; try (intros E; discriminate).
  exfalso. apply H. reflexivity.
Qed.

Lemma first_alias_None (table : list (str * str)) (s : str) :
  first_alias table s = None <->
  Forall (fun e => ~ occurs_in (fst e) s) table.
Proof.
  induction table as [|[key ko] rest IH]; simpl.
  - split; [constructor | reflexivity].
  - destruct (contains key s) eqn:E.
    + split; [discriminate |].
      intros H. inversion H as [|? ? Hk _]; subst. simpl in Hk.
      apply contains_occurs_in in E. contradiction.
    + rewrite IH. apply contains_false_not_occurs in E. split.
      * intros H. constructor; assumption.
      * intros H. inversion H; assumption.
Qed.

Lemma alias_applies_first_alias (table : list (str * str)) (s key ko : str) :
  alias_applies table s key ko -> first_alias table s = Some ko.
Proof.
  intros (before & after & -> & Hocc & Hnot).
  induction before as [|[k' n'] before IH]; simpl.
  - apply contains_occurs_in in Hocc. rewrite Hocc. reflexivity.
  - inversion Hnot as [|? ? Hk Hrest]; subst. simpl in Hk.
    apply contains_false_not_occurs in Hk. rewrite Hk. apply IH, Hrest.
Qed.

Lemma first_alias_alias_applies (table : list (str * str)) (s ko : str) :
  first_alias table s = Some ko -> exists key, alias_applies table s key ko.
Proof.
  induction table as [|[k n] rest IH]; simpl; [discriminate |].
  destruct (contains k s) eqn:E.
  - intros [= ->]. exists k, [], rest. repeat split.
    + apply contains_occurs_in, E.
    + constructor.
  - intros H. destruct (IH H) as (key & before & after & -> & Hocc & Hnot).
    exists key, ((k, n) :: before), after. repeat split; [exact Hocc |].
    constructor; [apply contains_false_not_occurs, E | exact Hnot].
Qed.

(** ** Press-name normalisation *)

Section NormalizerProperties.
Variable L : Library.

Lemma guess_press_from_link_cases (link : str) :
  guess_press_from_link L link = UNKNOWN_PRESS
  \/ exists netloc host,
       urlparse_netloc L link = Some netloc
       /\ host = remove_all (py "www.") (str_lower L netloc)
       /\ host <> []
       /\ guess_press_from_link L link =
            if (2 <=? length (split 46 host))%nat
            then nth (length (split 46 host) - 2) (split 46 host) []
            else host.
Proof.
  unfold guess_press_from_link.
  destruct (urlparse_netloc L link) as [netloc|]; [| left; reflexivity].
  destruct (remove_all (py "www.") (str_lower L netloc)) as [|c host] eqn:E.
  - left. reflexivity.
  - right. exists netloc, (c :: host). rewrite E. simpl nonempty. simpl negb.
    split; [reflexivity |]. split; [reflexivity |].
    split; [discriminate | reflexivity].
Qed.

(** C8, as the code has it: the label is first trimmed of surrounding
    white space, and it is the trimmed label [value] that is tested and
    returned.  (1) A non-empty [value] with a Korean character is returned
    as it is.  (2) Otherwise the alias table is searched with the
    lower-cased, space-free [value], then with the lower-cased, space-free
    token guessed from the link, and the first match is returned, the label
    before the link.  (3) With no match, a non-empty [value] is returned,
    else the token guessed from the link, which is the unknown-publisher
    sentinel when the link has no host.  The raw label "Yonhap" gives
    "연합뉴스" with any link. *)
Theorem normalize_press_name_steps (raw_press link : str) :
  let value := strip raw_press in
  let lower_value := remove_spaces (str_lower L value) in
  let host_guess := guess_press_from_link L link in
  let lower_host_guess := remove_spaces (str_lower L host_guess) in
  let result := normalize_press_name L raw_press link in
  (value <> [] -> has_korean value = true -> result = value)
  /\ (value = [] \/ has_korean value = false ->
        (forall ko_name,
            first_alias PRESS_NAME_MAP lower_value = Some ko_name ->
            result = ko_name)
        /\ (forall ko_name,
            first_alias PRESS_NAME_MAP lower_value = None ->
            first_alias PRESS_NAME_MAP lower_host_guess = Some ko_name ->
            result = ko_name)
        /\ (first_alias PRESS_NAME_MAP lower_value = None ->
            first_alias PRESS_NAME_MAP lower_host_guess = None ->
            (value <> [] -> result = value)
            /\ (value = [] -> result = host_guess)))
  /\ (urlparse_netloc L link = None -> host_guess = UNKNOWN_PRESS)
  /\ (forall netloc,
        urlparse_netloc L link = Some netloc ->
        remove_all (py "www.") (str_lower L netloc) = [] ->
        host_guess = UNKNOWN_PRESS)
  /\ (str_lower L (py "Yonhap") = py "yonhap" ->
      normalize_press_name L (py "Yonhap") link = py "연합뉴스").
Proof.
  cbv zeta. unfold normalize_press_name.
  repeat apply conj.
  - intros Hne Hko. destruct (strip raw_press) as [|c v]; [contradiction |].
    simpl nonempty. rewrite Hko. reflexivity.
  - intros Hno.
    assert (Hcond : nonempty (strip raw_press) && has_korean (strip raw_press)
                    = false).
    { destruct Hno as [-> | ->]; [reflexivity | apply andb_false_r]. }
    rewrite Hcond. repeat apply conj.
    + intros ko H. rewrite H. reflexivity.
    + intros ko H1 H2. rewrite H1, H2. reflexivity.
    + intros H1 H2. rewrite H1, H2. split.
      * intros Hne. destruct (strip raw_press); [contradiction | reflexivity].
      * intros ->. reflexivity.
  - intros H. unfold guess_press_from_link. rewrite H. reflexivity.
  - intros netloc H1 H2. unfold guess_press_from_link. rewrite H1, H2.
    reflexivity.
  - intros Hlow.
    change (strip (py "Yonhap")) with (py "Yonhap").
    change (nonempty (py "Yonhap") && has_korean (py "Yonhap")) with false.
    cbv iota. rewrite Hlow. reflexivity.
Qed.

(** C10: when the trimmed label has no Korean character, an entry of the
    alias table applies as soon as its key occurs somewhere inside the
    lower-cased, space-free label, or, when no key occurs there, inside the
    lower-cased, space-free token guessed from the link; among the keys that
    occur, the first of the table decides.  So a label in which "mt" occurs,
    and none of the four keys before it, is named "머니투데이". *)
Theorem normalize_press_name_substring (raw_press link key ko_name : str) :
  let value := strip raw_press in
  let lower_value := remove_spaces (str_lower L value) in
  let lower_host_guess :=
    remove_spaces (str_lower L (guess_press_from_link L link)) in
  has_korean value = false ->
  (alias_applies PRESS_NAME_MAP lower_value key ko_name ->
   normalize_press_name L raw_press link = ko_name)
  /\ (Forall (fun e => ~ occurs_in (fst e) lower_value) PRESS_NAME_MAP ->
      alias_applies PRESS_NAME_MAP lower_host_guess key ko_name ->
      normalize_press_name L raw_press link = ko_name)
  /\ (occurs_in (py "mt") lower_value ->
      ~ occurs_in (py "yna") lower_value ->
      ~ occurs_in (py "yonhap") lower_value ->
      ~ occurs_in (py "mk") lower_value ->
      ~ occurs_in (py "hankyung") lower_value ->
      normalize_press_name L raw_press link = py "머니투데이").
Proof.
  cbv zeta. intros Hko. unfold normalize_press_name.
  rewrite Hko, andb_false_r. repeat apply conj.
  - intros H. rewrite (alias_applies_first_alias _ _ _ _ H). reflexivity.
  - intros Hnone H. apply first_alias_None in Hnone. rewrite Hnone.
    rewrite (alias_applies_first_alias _ _ _ _ H). reflexivity.
  - intros Hmt H1 H2 H3 H4.
    apply contains_occurs_in in Hmt.
    apply contains_false_not_occurs in H1, H2, H3, H4.
    unfold PRESS_NAME_MAP, first_alias.
    rewrite H1, H2, H3, H4, Hmt. reflexivity.
Qed.

End NormalizerProperties.

(** ** Sorting *)

Section SortedDesc.
Context {A : Type} (key : A -> Z).
Local Abbreviation desc := (desc key).

Lemma insert_desc_perm (x : A) (l : list A) :
  Permutation (insert_desc key x l) (x :: l).
Proof.
  induction l as [|y l IH]; simpl; [reflexivity |].
  destruct (key x <? key y)%Z; [| reflexivity].
  rewrite IH. apply perm_swap.
Qed.

Lemma sorted_desc_perm (l : list A) : Permutation (sorted_desc key l) l.
Proof.
  induction l as [|x l IH]; simpl; [reflexivity |].
  rewrite insert_desc_perm, IH. reflexivity.
Qed.

Lemma insert_desc_sorted (x : A) (l : list A) :
  StronglySorted desc l -> StronglySorted desc (insert_desc key x l).
Proof.
  induction 1 as [|y l Hs IH Hall]; simpl.
  - repeat constructor.
  - destruct (key x <? key y)%Z eqn:E.
    + apply Z.ltb_lt in E. constructor; [exact IH |].
      rewrite insert_desc_perm. constructor; [unfold desc; lia | exact Hall].
    + apply Z.ltb_ge in E. constructor; [constructor; assumption |].
      constructor; [exact E |].
      eapply Forall_impl; [exact Hall |].
      unfold desc. intros z Hz. lia.
Qed.

Lemma sorted_desc_sorted (l : list A) : StronglySorted desc (sorted_desc key l).
Proof.
  induction l as [|x l IH]; simpl; [constructor |].
  apply insert_desc_sorted, IH.
Qed.

End SortedDesc.

(** ** Staging store *)

(** C3, as the code has it: the purge keeps an article when
    [collected_at >= now - ttl], so an article is absent after the purge
    exactly when its age exceeds the TTL; one whose age is exactly the TTL
    stays.  One collected 8 days ago is absent after a purge of 7 days, one
    collected 6 days ago remains. *)
Theorem purge_old_inbox_exact (now : datetime) (days : Z) (st : State)
    (a : Article) :
  (In a (inbox_articles (purge_old_inbox now days st)) <->
   In a (inbox_articles st)
   /\ (now - art_collected_at a <= timedelta_days days)%Z)
  /\ ((now - art_collected_at a = timedelta_days 8)%Z ->
      ~ In a (inbox_articles (purge_old_inbox now 7 st)))
  /\ (In a (inbox_articles st) ->
      (now - art_collected_at a = timedelta_days 6)%Z ->
      In a (inbox_articles (purge_old_inbox now 7 st))).
Proof.
  unfold purge_old_inbox. simpl. split; [| split].
  - rewrite filter_In, Z.leb_le. split; intros [H1 H2]; split; auto; lia.
  - intros H Hin. apply filter_In in Hin as [_ H2].
    apply Z.leb_le in H2. unfold timedelta_days in *. lia.
  - intros H1 H2. apply filter_In. split; [exact H1 |].
    apply Z.leb_le. unfold timedelta_days in *. lia.
Qed.

(** C6: whatever the inbox holds, the alerts computed from it are, up to
    order, the alerts of its negative articles, one for each and no other;
    the time of each is the publication time of its article; and they are
    listed latest first.  The inbox itself is not touched. *)
Theorem refresh_alerts_exact (st : State) :
  let negative := List.filter art_is_negative (inbox_articles st) in
  let result := alerts (refresh_alerts st) in
  Permutation result (List.map alert_of negative)
  /\ length result = length negative
  /\ (forall al, In al result ->
        exists a, In a (inbox_articles st) /\ art_is_negative a = true
                  /\ al = alert_of a /\ alert_time al = art_published_at a)
  /\ (forall a, In a (inbox_articles st) -> art_is_negative a = true ->
        In (alert_of a) result)
  /\ StronglySorted (fun x y => (alert_time y <= alert_time x)%Z) result
  /\ inbox_articles (refresh_alerts st) = inbox_articles st.
Proof.
  cbv zeta. unfold refresh_alerts. simpl.
  set (items := List.map alert_of
                  (List.filter art_is_negative (inbox_articles st))).
  assert (HP : Permutation (sorted_desc alert_time items) items)
    by apply sorted_desc_perm.
  repeat apply conj.
  - exact HP.
  - rewrite (Permutation_length HP). unfold items. apply length_map.
  - intros al Hal. apply (Permutation_in _ HP) in Hal.
    unfold items in Hal. apply in_map_iff in Hal as (a & <- & Ha).
    apply filter_In in Ha as [Ha Hn]. exists a. auto.
  - intros a Ha Hn. apply (Permutation_in _ (Permutation_sym HP)).
    unfold items. apply in_map, filter_In. auto.
  - apply (sorted_desc_sorted alert_time).
  - reflexivity.
Qed.

(** ** Ingestion *)

Section IngestionProperties.
Variable L : Library.
Variable W : World.

Lemma collect_item_skips (keyword : str) (c : Collect) (item : Item) :
  resolved_link item = [] \/ resolved_link item ∈ c_existing_links c ->
  collect_item L W keyword c item = c.
Proof.
  intros [H | H]; unfold collect_item.
  - rewrite H. reflexivity.
  - rewrite (bool_decide_eq_true_2 _ H), orb_true_r. reflexivity.
Qed.

Lemma collect_item_tracked (keyword : str) (c : Collect) (item : Item) :
  links_tracked c -> links_tracked (collect_item L W keyword c item).
Proof.
  intros [Hnd Hin]. unfold collect_item.
  destruct (negb (nonempty (resolved_link item))); [split; assumption |].
  simpl orb. case_bool_decide as Hmem; [split; assumption |].
  split; simpl.
  - constructor; [| exact Hnd]. intros Hl. apply Hmem, Hin, Hl.
  - intros l Hl. apply elem_of_cons in Hl as [-> | Hl]; [set_solver |].
    apply elem_of_union_r, Hin, Hl.
Qed.

Lemma collect_items_tracked (keyword : str) (items : list Item) (c : Collect) :
  links_tracked c ->
  links_tracked (fold_left (collect_item L W keyword) items c).
Proof.
  revert c. induction items as [|item items IH]; intros c Hc; simpl.
  - exact Hc.
  - apply IH, collect_item_tracked, Hc.
Qed.

Lemma collect_keywords_tracked (kws : list str) (k : nat) (c : Collect) :
  links_tracked c -> links_tracked (fst (collect_keywords L W k kws c)).
Proof.
  revert k c. induction kws as [|keyword rest IH]; intros k c Hc; simpl.
  - exact Hc.
  - destruct (fetch_items W k keyword) as [items|]; simpl.
    + apply IH, collect_items_tracked, Hc.
    + exact Hc.
Qed.

Lemma collect_inbox (st : State) :
  inbox_articles (fst (collect_news_from_naver L W st)) = inbox_articles st
  \/ exists kws,
       inbox_articles (fst (collect_news_from_naver L W st)) =
       c_inbox (fst (collect_keywords L W 0 kws
           {| c_inbox := inbox_articles st;
              c_existing_links :=
                list_to_set (List.map art_link (inbox_articles st));
              c_added := 0 |})).
Proof.
  unfold collect_news_from_naver.
  destruct (negb (naver_api_ready W)); [left; reflexivity |].
  right. eexists.
  match goal with
  | |- context [collect_keywords L W 0 ?kws ?c0] =>
      destruct (collect_keywords L W 0 kws c0) as [c ok] eqn:E
  end.
  simpl. rewrite E. reflexivity.
Qed.

(** C4: a run that starts from an inbox without two articles of the same
    link ends, whatever its outcome, with such an inbox.  An item is
    skipped when its link (the original link if there is one, else the
    feed's link) is empty or is among [existing_links], which holds the
    links of the inbox and receives the link of every article the run
    adds, for all keywords alike. *)
Theorem collect_news_links_unique (st : State) :
  NoDup (List.map art_link (inbox_articles st)) ->
  NoDup (List.map art_link
           (inbox_articles (fst (collect_news_from_naver L W st))))
  /\ (forall keyword c item,
        resolved_link item = [] \/ resolved_link item ∈ c_existing_links c ->
        collect_item L W keyword c item = c)
  /\ (forall keyword c item,
        resolved_link item <> [] ->
        resolved_link item ∈
          c_existing_links (collect_item L W keyword c item))
  /\ (forall item l,
        item_originallink item = Some l -> l <> [] ->
        resolved_link item = l)
  /\ (forall item l,
        item_originallink item = None \/ item_originallink item = Some [] ->
        item_link item = Some l ->
        resolved_link item = l).
Proof.
  intros Hnd. repeat apply conj.
  - destruct (collect_inbox st) as [-> | [kws ->]]; [exact Hnd |].
    apply collect_keywords_tracked. split; simpl; [exact Hnd |].
    intros l Hl. apply elem_of_list_to_set, Hl.
  - apply collect_item_skips.
  - intros keyword c item Hne. unfold collect_item.
    destruct (resolved_link item) as [|ch l] eqn:E; [contradiction |].
    simpl negb. simpl orb. case_bool_decide as Hmem; [exact Hmem |].
    simpl. set_solver.
  - intros item l H Hne. unfold resolved_link. rewrite H.
    destruct l; [contradiction | reflexivity].
  - intros item l H1 H2. unfold resolved_link. rewrite H2.
    destruct H1 as [-> | ->]; destruct l; reflexivity.
Qed.

(** ** Scheduler *)

Lemma last_collect (st : State) :
  last_auto_collect_at (fst (collect_news_from_naver L W st))
  = last_auto_collect_at st.
Proof.
  unfold collect_news_from_naver.
  destruct (negb (naver_api_ready W)); [reflexivity |].
  match goal with
  | |- context [collect_keywords L W 0 ?kws ?c0] =>
      destruct (collect_keywords L W 0 kws c0) as [c ok]
  end.
  reflexivity.
Qed.

(** C7: a scheduler tick that is enabled, has its credentials and finds
    an hour or more elapsed since [last_auto_collect_at] ends with
    [last_auto_collect_at = now], whatever the collection returned; a tick
    that does not collect leaves the state as it is; and the manual trigger,
    which runs the same collection followed by the same refresh, leaves
    [last_auto_collect_at] as it was. *)
Theorem only_scheduled_collect_updates_last_run (now : datetime) (st : State) :
  (auto_collect_enabled st = true ->
   naver_api_ready W = true ->
   (timedelta_hours 1 <= now - last_auto_collect_at st)%Z ->
   last_auto_collect_at (run_hourly_auto_collect L W now st) = now
   /\ run_hourly_auto_collect L W now st =
        set_last_auto_collect_at
          (refresh_alerts (fst (collect_news_from_naver L W st))) now)
  /\ (auto_collect_enabled st = false \/ naver_api_ready W = false
      \/ (now - last_auto_collect_at st < timedelta_hours 1)%Z ->
      run_hourly_auto_collect L W now st = st)
  /\ manual_collect L W st
       = refresh_alerts (fst (collect_news_from_naver L W st))
  /\ last_auto_collect_at (manual_collect L W st) = last_auto_collect_at st.
Proof.
  unfold run_hourly_auto_collect, manual_collect. repeat apply conj.
  - intros -> -> Hdue. apply Z.leb_le in Hdue. rewrite Hdue. simpl.
    destruct (collect_news_from_naver L W st) as [st1 r]. split; reflexivity.
  - intros [-> | [-> | Hlt]]; [reflexivity | |].
    + destruct (auto_collect_enabled st); reflexivity.
    + apply Z.leb_gt in Hlt. rewrite Hlt.
      destruct (auto_collect_enabled st), (naver_api_ready W); reflexivity.
  - destruct (collect_news_from_naver L W st) as [st1 r]. reflexivity.
  - rewrite <- (last_collect st).
    destruct (collect_news_from_naver L W st) as [st1 r]. reflexivity.
Qed.

End IngestionProperties.

(** C1 on the code: with two keywords, when the request for the first
    one brings an article and the request for the second one raises, the run
    returns [(0, "error")] and the article of the first keyword is in the
    inbox all the same. *)
Theorem collect_error_after_partial_insert :
  let st := demo_state [] [] in
  let result := collect_news_from_naver demo_library demo_world_failing st in
  snd result = (0%nat, error)
  /\ List.map art_link (inbox_articles (fst result))
     = [py "https://example.com/1"]
  /\ inbox_articles (fst result) <> inbox_articles st.
Proof.
  vm_compute. repeat split. discriminate.
Qed.

(** ** Folder deletion *)

Lemma filter_split_length {A} (f : A -> bool) (l : list A) :
  (length (List.filter (fun x => negb (f x)) l) + length (List.filter f l)
   = length l)%nat.
Proof.
  induction l as [|x l IH]; simpl; [reflexivity |].
  destruct (f x); simpl; lia.
Qed.

Lemma saved_articles_set_folders (st : State) (v : list str) :
  saved_articles (set_folders st v) = saved_articles st.
Proof. reflexivity. Qed.

(** C9: deleting folders without the cascade leaves the number of saved
    articles as it was, every article of a deleted folder being moved to
    the fallback folder, which is in the folder list afterwards (it is
    added when absent); deleting with the cascade removes the saved
    articles of the deleted folders and no other, so the number goes down
    by the number of those. *)
Theorem delete_folders_counts (removable_folders : list str) (st : State) :
  let in_removed s := bool_decide (folder s ∈ removable_folders) in
  length (saved_articles (delete_folders removable_folders false st))
  = length (saved_articles st)
  /\ (length (saved_articles (delete_folders removable_folders true st))
      + length (List.filter in_removed (saved_articles st))
      = length (saved_articles st))%nat
  /\ (removable_folders <> [] ->
      saved_articles (delete_folders removable_folders false st)
      = List.map
          (fun s => if in_removed s then set_folder s FALLBACK_FOLDER else s)
          (saved_articles st))
  /\ (removable_folders <> [] ->
      saved_articles (delete_folders removable_folders true st)
      = List.filter (fun s => negb (in_removed s)) (saved_articles st))
  /\ (removable_folders <> [] ->
      FALLBACK_FOLDER ∉ removable_folders ->
      FALLBACK_FOLDER ∈ folders (delete_folders removable_folders false st)).
Proof.
  cbv zeta. unfold delete_folders.
  destruct removable_folders as [|name names].
  { repeat apply conj; try (intros H; contradiction); [reflexivity |].
    replace (List.filter (fun s => bool_decide (folder s ∈ []))
               (saved_articles st)) with (@nil SavedArticle); [simpl; lia |].
    induction (saved_articles st) as [|s l IH]; simpl; [reflexivity |].
    exact IH. }
  set (removed := name :: names).
  repeat apply conj.
  - rewrite saved_articles_set_folders. simpl.
    destruct (bool_decide (FALLBACK_FOLDER ∈ folders st));
      simpl; apply length_map.
  - rewrite saved_articles_set_folders. simpl.
    apply (filter_split_length
             (fun s => bool_decide (folder s ∈ removed))).
  - intros _. rewrite saved_articles_set_folders. simpl.
    destruct (bool_decide (FALLBACK_FOLDER ∈ folders st)); reflexivity.
  - intros _. reflexivity.
  - intros _ Hnot. simpl.
    set (st0 := if bool_decide (FALLBACK_FOLDER ∈ folders st) then st
                else set_folders st (folders st ++ [FALLBACK_FOLDER])).
    assert (H0 : FALLBACK_FOLDER ∈ folders st0).
    { unfold st0. case_bool_decide as Hin; [exact Hin |].
      simpl. apply elem_of_app. right. apply list_elem_of_singleton.
      reflexivity. }
    assert (Hrem : FALLBACK_FOLDER ∈
              List.filter (fun f => negb (bool_decide (f ∈ removed)))
                (folders st0)).
    { apply list_elem_of_In, filter_In. split.
      - apply list_elem_of_In, H0.
      - rewrite (bool_decide_eq_false_2 _ Hnot). reflexivity. }
    destruct (List.filter (fun f => negb (bool_decide (f ∈ removed)))
                (folders st0)) as [|f rest] eqn:E.
    + inversion Hrem.
    + exact Hrem.
Qed.

(** ** Promotion *)

Lemma same_but_press_refl (a : Article) : same_but_press a a.
Proof. destruct a; reflexivity. Qed.

Lemma same_but_press_set (a a' : Article) (p : str) :
  same_but_press a a' -> same_but_press a (set_press a' p).
Proof. unfold same_but_press. intros H. rewrite H. reflexivity. Qed.

Lemma same_but_press_trans (a b c : Article) :
  same_but_press a b -> same_but_press b c -> same_but_press a c.
Proof.
  unfold same_but_press. intros H1 H2. rewrite H2, H1. reflexivity.
Qed.

Lemma same_but_press_id (a a' : Article) :
  same_but_press a a' -> art_id a' = art_id a.
Proof. unfold same_but_press. intros ->. reflexivity. Qed.

Lemma Forall2_same_but_press_refl (l : list Article) :
  Forall2 same_but_press l l.
Proof. induction l; constructor; auto using same_but_press_refl. Qed.

Lemma Forall2_same_but_press_trans (l1 l2 l3 : list Article) :
  Forall2 same_but_press l1 l2 -> Forall2 same_but_press l2 l3 ->
  Forall2 same_but_press l1 l3.
Proof.
  intros H. revert l3. induction H as [|a b l1 l2 Hab _ IH]; intros l3 H3.
  - inversion H3. constructor.
  - inversion H3 as [|? c ? l3' Hbc Hrest]; subst.
    constructor; [eapply same_but_press_trans; eassumption | apply IH, Hrest].
Qed.

Lemma Forall2_same_but_press_ids (l l' : list Article) :
  Forall2 same_but_press l l' -> List.map art_id l' = List.map art_id l.
Proof.
  induction 1 as [|a b l l' Hab _ IH]; simpl; [reflexivity |].
  rewrite (same_but_press_id _ _ Hab), IH. reflexivity.
Qed.

Lemma Forall2_same_but_press_insert (l : list Article) (pos : nat)
    (a : Article) (p : str) :
  l !! pos = Some a ->
  Forall2 same_but_press l (<[pos := set_press a p]> l).
Proof.
  intros H. rewrite <- (list_insert_id l pos a H) at 1.
  apply Forall2_insert; [apply Forall2_same_but_press_refl |].
  apply same_but_press_set, same_but_press_refl.
Qed.

Lemma NoDup_map_filter {A B} (g : A -> B) (f : A -> bool) (l : list A) :
  NoDup (List.map g l) -> NoDup (List.map g (List.filter f l)).
Proof.
  induction l as [|x l IH]; simpl; [auto |].
  intros H. apply NoDup_cons in H as [Hx Hl].
  destruct (f x); simpl; [| auto].
  apply NoDup_cons. split; [| auto].
  intros Hin. apply Hx.
  apply list_elem_of_In, in_map_iff in Hin as (y & Hy & Hin).
  apply filter_In in Hin as [Hin _].
  apply list_elem_of_In, in_map_iff. eauto.
Qed.

Lemma map_fst_imap_pair {A} (l : list A) (i : nat) :
  List.map fst (imap (fun k x => (i + k, x)%nat) l) = seq i (length l).
Proof.
  revert i. induction l as [|x l IH]; intros i; simpl; [reflexivity |].
  f_equal; [lia |].
  rewrite <- (IH (S i)). f_equal. apply imap_ext. intros k y _. simpl.
  f_equal. lia.
Qed.

Lemma filtered_positions_NoDup (label : str) (inbox : list Article) :
  NoDup (List.map fst (filtered_articles label inbox)).
Proof.
  assert (Hs : NoDup (List.map fst (inbox_sorted inbox))).
  { unfold inbox_sorted.
    rewrite (Permutation_map fst (sorted_desc_perm _ (imap pair inbox))).
    change (imap pair inbox) with (imap (fun k x => (0 + k, x)%nat) inbox).
    rewrite (map_fst_imap_pair inbox 0). apply NoDup_seq. }
  unfold filtered_articles. case_bool_decide; [exact Hs |].
  apply NoDup_map_filter, Hs.
Qed.

Section PromotionProperties.
Variable L : Library.
Variable W : World.
Variable target_folder : str.
Variable rows : list EditorRow.
Variable selected_ids : list str.
Variable existing_ids : gset str.

Local Abbreviation step :=
  (save_article L W target_folder rows selected_ids existing_ids).

(** One turn of the loop either changes nothing, or rewrites the press of
    the article at [pos] and appends its snapshot. *)
Lemma save_article_cases (s : Saving) (pos : nat) :
  step s pos = s
  \/ exists article final_press r,
       (s_inbox s) !! pos = Some article
       /\ art_id article ∈ selected_ids
       /\ (art_id article ∉ existing_ids)
       /\ s_inbox (step s pos)
          = <[pos := set_press article final_press]> (s_inbox s)
       /\ s_saved (step s pos) = s_saved s ++ [r]
       /\ snapshot_of r (set_press article final_press).
Proof.
  unfold save_article.
  destruct (s_inbox s !! pos) as [article|] eqn:E; [| left; reflexivity].
  case_bool_decide as Hsel; [| left; reflexivity].
  case_bool_decide as Hex; [left; reflexivity |].
  right. simpl. eexists article, _, _.
  repeat (split; [first [reflexivity | assumption] |]).
  repeat split.
Qed.

Lemma save_article_saved_id (s : Saving) (pos : nat) :
  (forall i, i ∈ selected_ids -> i ∈ existing_ids) -> step s pos = s.
Proof.
  intros Hall. unfold save_article.
  destruct (s_inbox s !! pos) as [article|]; [| reflexivity].
  case_bool_decide as Hsel; [| reflexivity].
  rewrite (bool_decide_eq_true_2 _ (Hall _ Hsel)). reflexivity.
Qed.

(** What the whole loop does, over distinct positions. *)
Lemma save_articles_fold (ps : list nat) (s : Saving) :
  NoDup ps ->
  let s' := fold_left step ps s in
  Forall2 same_but_press (s_inbox s) (s_inbox s')
  /\ (forall pos, pos ∉ ps -> (s_inbox s') !! pos = (s_inbox s) !! pos)
  /\ exists new,
       s_saved s' = s_saved s ++ new
       /\ Forall (fun r =>
                    article_id r ∈ selected_ids
                    /\ (article_id r ∉ existing_ids)
                    /\ exists pos a',
                         pos ∈ ps /\ (s_inbox s') !! pos = Some a'
                         /\ snapshot_of r a') new
       /\ (NoDup (List.map art_id (s_inbox s)) ->
           NoDup (List.map article_id new)).
Proof.
  cbv zeta. revert s. induction ps as [|p ps IH]; intros s Hnd; simpl.
  { split; [apply Forall2_same_but_press_refl |]. split; [reflexivity |].
    exists []. rewrite app_nil_r. repeat split; constructor. }
  apply NoDup_cons in Hnd as [Hp Hnd].
  destruct (IH (step s p) Hnd) as (Hsame & Hframe & new & Hsaved & Hnew & Hids).
  destruct (save_article_cases s p) as
    [Heq | (article & final & r & Hat & Hsel & Hex & Hinbox & Hsv & Hsnap)].
  - rewrite Heq in *. split; [exact Hsame |]. split.
    + intros pos Hpos. apply Hframe. intros Hin. apply Hpos.
      apply elem_of_cons. right. exact Hin.
    + exists new. split; [exact Hsaved |]. split; [| exact Hids].
      eapply Forall_impl; [exact Hnew |].
      intros r' (H1 & H2 & pos & a' & Hpos & Ha' & Hs').
      repeat split; try assumption. exists pos, a'.
      split; [apply elem_of_cons; right; exact Hpos | split; assumption].
  - assert (Hstep : Forall2 same_but_press (s_inbox s) (s_inbox (step s p))).
    { rewrite Hinbox. apply Forall2_same_but_press_insert, Hat. }
    split; [eapply Forall2_same_but_press_trans; eassumption |]. split.
    + intros pos Hpos.
      rewrite Hframe by (intros Hin; apply Hpos, elem_of_cons; auto).
      rewrite Hinbox. apply list_lookup_insert_ne.
      intros ->. apply Hpos, elem_of_cons. auto.
    + assert (Hatp : (s_inbox (fold_left step ps (step s p))) !! p
                     = Some (set_press article final)).
      { rewrite (Hframe p Hp), Hinbox. apply list_lookup_insert_eq.
        apply lookup_lt_is_Some. eauto. }
      exists (r :: new). split; [rewrite Hsaved, Hsv, <- app_assoc; reflexivity |].
      split.
      * constructor.
        -- pose proof Hsnap as (Hid & _). simpl in Hid. rewrite Hid.
           repeat split; try assumption.
           exists p, (set_press article final).
           split; [apply elem_of_cons; auto |]. split; [exact Hatp |].
           repeat split; apply Hsnap.
        -- eapply Forall_impl; [exact Hnew |].
           intros r' (H1 & H2 & pos & a' & Hpos & Ha' & Hs').
           repeat split; try assumption. exists pos, a'.
           split; [apply elem_of_cons; right; exact Hpos | split; assumption].
      * intros Hinb. simpl. apply NoDup_cons. split.
        -- intros Hin.
           apply list_elem_of_In, in_map_iff in Hin as (r' & Hr' & Hin).
           apply list_elem_of_In in Hin.
           rewrite Forall_forall in Hnew.
           destruct (Hnew r' Hin) as (_ & _ & pos & a' & Hpos & Ha' & Hs').
           apply Hp.
           assert (Hfinal : NoDup (List.map art_id
                       (s_inbox (fold_left step ps (step s p))))).
           { rewrite (Forall2_same_but_press_ids _ _ Hsame),
               (Forall2_same_but_press_ids _ _ Hstep). exact Hinb. }
           assert (Epos : pos = p).
           { eapply (NoDup_lookup _ pos p _ Hfinal).
             - change (List.map art_id ?l) with (art_id <$> l).
               rewrite list_lookup_fmap, Ha'. simpl.
               destruct Hs' as (<- & _). rewrite Hr'. reflexivity.
             - change (List.map art_id ?l) with (art_id <$> l).
               rewrite list_lookup_fmap, Hatp. simpl.
               pose proof Hsnap as (Hid & _). simpl in Hid. rewrite Hid.
               reflexivity. }
           rewrite <- Epos. exact Hpos.
        -- apply Hids.
           rewrite (Forall2_same_but_press_ids _ _ Hstep). exact Hinb.
Qed.

End PromotionProperties.

Section PageInboxProperties.
Variable L : Library.

Lemma set_inbox_saved_same (st : State) :
  set_saved_articles (set_inbox_articles st (inbox_articles st))
    (saved_articles st) = st.
Proof. destruct st; reflexivity. Qed.

(** The handler always amounts to the loop: what the guards before the
    loop let through unchanged, the loop leaves unchanged as well. *)
Lemma page_inbox_save_fold (W : World) (label target_folder : str)
    (user : nat -> RowEdit) (st : State) :
  let filtered := filtered_articles label (inbox_articles st) in
  let rows := current_editor L user filtered in
  let selected_ids := List.map row_id (List.filter row_selected rows) in
  let s :=
    fold_left
      (save_article L W target_folder rows selected_ids
         (list_to_set (List.map article_id (saved_articles st))))
      (List.map fst filtered)
      {| s_inbox := inbox_articles st;
         s_saved := saved_articles st;
         s_saved_count := 0 |} in
  page_inbox_save L W label target_folder user st
  = set_saved_articles (set_inbox_articles st (s_inbox s)) (s_saved s).
Proof.
  cbv zeta. unfold page_inbox_save.
  assert (Hnil : inbox_articles st = [] ->
                 filtered_articles label (inbox_articles st) = []).
  { intros ->. unfold filtered_articles. case_bool_decide; reflexivity. }
  destruct (inbox_articles st) as [|a0 inbox0] eqn:Ei.
  { rewrite (Hnil eq_refl). simpl. rewrite <- Ei. symmetry.
    apply set_inbox_saved_same. }
  clear Hnil. rewrite <- Ei.
  destruct (filtered_articles label (inbox_articles st)) as [|p0 f0] eqn:Ef.
  { simpl. symmetry. apply set_inbox_saved_same. }
  rewrite <- Ef.
  destruct (List.map row_id (List.filter row_selected
              (current_editor L user
                 (filtered_articles label (inbox_articles st)))))
    as [|i0 ids0] eqn:Es; [| reflexivity].
  assert (Hnone : forall ps s,
             fold_left (save_article L W target_folder
                 (current_editor L user
                    (filtered_articles label (inbox_articles st))) []
                 (list_to_set (List.map article_id (saved_articles st))))
               ps s = s).
  { induction ps as [|p ps IH]; intros s; simpl; [reflexivity |].
    rewrite save_article_saved_id; [apply IH |].
    intros i Hi. inversion Hi. }
  rewrite Hnone. symmetry. apply set_inbox_saved_same.
Qed.

(** C2, as the code has it: saving from the inbox leaves every field of
    every article of the inbox as it was except [press], appends the new
    snapshots to the archive without touching the records already there,
    and each new snapshot carries the fields of an article of the inbox as
    it is after the save, the rewritten [press] included. *)
Theorem promotion_rewrites_press_only (W : World) (label target_folder : str)
    (user : nat -> RowEdit) (st : State) :
  let st' := page_inbox_save L W label target_folder user st in
  length (inbox_articles st') = length (inbox_articles st)
  /\ (forall pos a a',
        (inbox_articles st) !! pos = Some a ->
        (inbox_articles st') !! pos = Some a' ->
        art_id a' = art_id a
        /\ art_title a' = art_title a
        /\ art_published_at a' = art_published_at a
        /\ art_link a' = art_link a
        /\ art_summary a' = art_summary a
        /\ art_query_keyword a' = art_query_keyword a
        /\ art_is_negative a' = art_is_negative a
        /\ art_negative_hits a' = art_negative_hits a
        /\ art_collected_at a' = art_collected_at a)
  /\ (exists new,
       saved_articles st' = saved_articles st ++ new
       /\ Forall (fun r => exists pos a',
                    (inbox_articles st') !! pos = Some a' /\ snapshot_of r a')
            new)
  /\ (forall rows selected_ids existing_ids s pos article,
        (s_inbox s) !! pos = Some article ->
        art_id article ∈ selected_ids ->
        art_id article ∉ existing_ids ->
        let typed :=
          strip (match edited_row rows (art_id article) with
                 | Some r => row_press r
                 | None => art_press article
                 end) in
        let final_press :=
          if nonempty typed
          then normalize_press_name L typed (art_link article)
          else normalize_press_name L (art_press article) (art_link article) in
        let s' :=
          save_article L W target_folder rows selected_ids existing_ids s pos in
        s_inbox s' = <[pos := set_press article final_press]> (s_inbox s)
        /\ exists r,
             s_saved s' = s_saved s ++ [r]
             /\ saved_press r = final_press
             /\ folder r = target_folder
             /\ snapshot_of r (set_press article final_press)).
Proof.
  cbv zeta.
  assert (Hbody : forall rows selected_ids existing_ids s pos article,
    (s_inbox s) !! pos = Some article ->
    art_id article ∈ selected_ids ->
    art_id article ∉ existing_ids ->
    save_article L W target_folder rows selected_ids existing_ids s pos
    = let typed :=
        strip (match edited_row rows (art_id article) with
               | Some r => row_press r
               | None => art_press article
               end) in
      let final_press :=
        if nonempty typed
        then normalize_press_name L typed (art_link article)
        else normalize_press_name L (art_press article) (art_link article) in
      {| s_inbox := <[pos := set_press article final_press]> (s_inbox s);
         s_saved :=
           s_saved s ++
           [ {| saved_id := uuid4 W (s_saved_count s);
                article_id := art_id article;
                folder := target_folder;
                saved_at := now_stamp W (s_saved_count s);
                saved_title := art_title article;
                saved_press := final_press;
                saved_published_at := art_published_at article;
                saved_link := art_link article;
                saved_summary := art_summary article;
                saved_negative_hits := art_negative_hits article |} ];
         s_saved_count := S (s_saved_count s) |}).
  { intros rows selected_ids existing_ids s pos article Hat Hsel Hex.
    unfold save_article. rewrite Hat.
    rewrite (bool_decide_eq_true_2 _ Hsel), (bool_decide_eq_false_2 _ Hex).
    reflexivity. }
  rewrite page_inbox_save_fold. simpl.
  match goal with
  | |- context [fold_left (save_article _ _ _ ?rs ?sel ?ex) ?ps ?s0] =>
      destruct (save_articles_fold L W target_folder rs sel ex ps s0
                  (filtered_positions_NoDup label (inbox_articles st)))
        as (Hsame & _ & new & Hsaved & Hnew & _)
  end.
  simpl in Hsame, Hsaved. split; [| split; [| split]].
  - symmetry. eapply Forall2_length, Hsame.
  - intros pos a a' Ha Ha'.
    assert (H : same_but_press a a')
      by (eapply Forall2_lookup_lr; eassumption).
    unfold same_but_press in H. rewrite H. repeat split.
  - exists new. split; [exact Hsaved |].
    eapply Forall_impl; [exact Hnew |].
    intros r (_ & _ & pos & a' & _ & Ha' & Hs). eauto.
  - intros rows selected_ids existing_ids s pos article Hat Hsel Hex.
    rewrite (Hbody rows selected_ids existing_ids s pos article Hat Hsel Hex).
    simpl. split; [reflexivity |].
    eexists. split; [reflexivity |]. repeat split.
Qed.

(** C5: pressing the save button adds no record for an article id that
    already has one and changes no record of the archive; when every
    ticked article is already saved, nothing at all changes.  So, with
    article ids that are distinct in the inbox, an archive with at most one
    record per article id keeps that property through any sequence of
    presses. *)
Theorem promotion_idempotent (W : World) (label target_folder : str)
    (user : nat -> RowEdit) (st : State) :
  let st' := page_inbox_save L W label target_folder user st in
  let rows :=
    current_editor L user (filtered_articles label (inbox_articles st)) in
  let selected_ids := List.map row_id (List.filter row_selected rows) in
  (exists new,
      saved_articles st' = saved_articles st ++ new
      /\ forall r, r ∈ new ->
           article_id r ∉ List.map article_id (saved_articles st))
  /\ ((forall i, i ∈ selected_ids ->
         i ∈ List.map article_id (saved_articles st)) ->
      st' = st)
  /\ (NoDup (List.map art_id (inbox_articles st)) ->
      NoDup (List.map article_id (saved_articles st)) ->
      NoDup (List.map art_id (inbox_articles st'))
      /\ NoDup (List.map article_id (saved_articles st')))
  /\ (forall clicks,
        NoDup (List.map art_id (inbox_articles st)) ->
        NoDup (List.map article_id (saved_articles st)) ->
        NoDup (List.map article_id
                 (saved_articles (page_inbox_saves L clicks st)))).
Proof.
  cbv zeta.
  assert (Hone : forall W label target_folder user st,
    NoDup (List.map art_id (inbox_articles st)) ->
    NoDup (List.map article_id (saved_articles st)) ->
    NoDup (List.map art_id
             (inbox_articles (page_inbox_save L W label target_folder user st)))
    /\ NoDup (List.map article_id
             (saved_articles (page_inbox_save L W label target_folder user st)))).
  { clear. intros W label target_folder user st Hin Hsv.
    rewrite page_inbox_save_fold. simpl.
    match goal with
    | |- context [fold_left (save_article _ _ _ ?rs ?sel ?ex) ?ps ?s0] =>
        destruct (save_articles_fold L W target_folder rs sel ex ps s0
                    (filtered_positions_NoDup label (inbox_articles st)))
          as (Hsame & _ & new & Hsaved & Hnew & Hids)
    end.
    simpl in Hsame, Hsaved, Hids. split.
    - rewrite (Forall2_same_but_press_ids _ _ Hsame). exact Hin.
    - rewrite Hsaved, map_app. apply NoDup_app.
      split; [exact Hsv |]. split; [| apply Hids, Hin].
      intros i Hi Hi'.
      apply list_elem_of_In, in_map_iff in Hi' as (r & <- & Hr).
      rewrite Forall_forall in Hnew.
      destruct (Hnew r (proj2 (list_elem_of_In _ _) Hr)) as (_ & Hex & _).
      apply Hex, elem_of_list_to_set, Hi. }
  split; [| split; [| split]].
  - rewrite page_inbox_save_fold. simpl.
    match goal with
    | |- context [fold_left (save_article _ _ _ ?rs ?sel ?ex) ?ps ?s0] =>
        destruct (save_articles_fold L W target_folder rs sel ex ps s0
                    (filtered_positions_NoDup label (inbox_articles st)))
          as (_ & _ & new & Hsaved & Hnew & _)
    end.
    simpl in Hsaved. exists new. split; [exact Hsaved |].
    intros r Hr. rewrite Forall_forall in Hnew.
    destruct (Hnew r Hr) as (_ & Hex & _).
    intros Hi. apply Hex, elem_of_list_to_set, Hi.
  - intros Hall. rewrite page_inbox_save_fold. simpl.
    match goal with
    | |- context [fold_left ?f ?ps ?s0] =>
        assert (Hfold : fold_left f ps s0 = s0)
    end.
    { generalize (List.map fst
                    (filtered_articles label (inbox_articles st))).
      intros ps.
      match goal with |- fold_left _ _ ?s0 = _ => generalize s0 end.
      induction ps as [|p ps IH]; intros s; simpl; [reflexivity |].
      rewrite save_article_saved_id; [apply IH |].
      intros i Hi. apply elem_of_list_to_set, Hall, Hi. }
    rewrite Hfold. simpl. apply set_inbox_saved_same.
  - apply Hone.
  - intros clicks. revert st. unfold page_inbox_saves.
    induction clicks as [|c clicks IH]; intros st Hin Hsv; simpl.
    + exact Hsv.
    + destruct (Hone (click_world c) (click_label c) (click_folder c)
                  (click_user c) st Hin Hsv) as [Hin' Hsv'].
      apply IH; assumption.
Qed.

End PageInboxProperties.

(** C2 on the code: the user ticks the only article of the inbox, whose
    press is "연합뉴스", and types "조선일보" in its press cell; after the
    save the article of the inbox has the press "조선일보". *)
Lemma promotion_with_override_changes_article :
  let st := demo_state [demo_a0] [] in
  let st' :=
    page_inbox_save demo_library (demo_world []) ALL_LABEL (py "보도자료")
      (tick_all_typing "조선일보") st in
  List.map art_press (inbox_articles st) = [py "연합뉴스"]
  /\ List.map art_press (inbox_articles st') = [py "조선일보"]
  /\ List.map saved_press (saved_articles st') = [py "조선일보"]
  /\ inbox_articles st' <> inbox_articles st.
Proof.
  vm_compute. repeat split. discriminate.
Qed.

(** ** The properties at work on concrete states *)

(** C8 on the code: the label " 연합뉴스", not empty and with Korean
    characters, comes back without its leading space. *)
Lemma normalize_trims_korean_label :
  nonempty (py " 연합뉴스") = true
  /\ has_korean (py " 연합뉴스") = true
  /\ normalize_press_name demo_library (py " 연합뉴스")
       (py "https://example.com/0") = py "연합뉴스"
  /\ normalize_press_name demo_library (py " 연합뉴스")
       (py "https://example.com/0") <> py " 연합뉴스".
Proof.
  vm_compute. repeat split. discriminate.
Qed.

Lemma normalize_press_name_steps_witness :
  normalize_press_name demo_library (py "Yonhap") (py "https://example.com/0")
  = py "연합뉴스"
  /\ normalize_press_name demo_library (py " 연합뉴스")
       (py "https://example.com/0") = strip (py " 연합뉴스").
Proof.
  split.
  - refine (proj2 (proj2 (proj2 (proj2
      (normalize_press_name_steps demo_library (py "Yonhap")
         (py "https://example.com/0"))))) _).
    vm_compute. reflexivity.
  - refine (proj1
      (normalize_press_name_steps demo_library (py " 연합뉴스")
         (py "https://example.com/0")) _ _).
    + vm_compute. discriminate.
    + vm_compute. reflexivity.
Defined.

Lemma normalize_press_name_substring_witness :
  has_korean (strip (py "Amtrak News")) = false
  /\ normalize_press_name demo_library (py "Amtrak News")
       (py "https://example.com/0") = py "머니투데이".
Proof.
  assert (H : has_korean (strip (py "Amtrak News")) = false)
    by (vm_compute; reflexivity).
  split; [exact H |].
  refine (proj2 (proj2
    (normalize_press_name_substring demo_library (py "Amtrak News")
       (py "https://example.com/0") [] [] H)) _ _ _ _ _).
  - apply contains_occurs_in. vm_compute. reflexivity.
  - apply contains_false_not_occurs. vm_compute. reflexivity.
  - apply contains_false_not_occurs. vm_compute. reflexivity.
  - apply contains_false_not_occurs. vm_compute. reflexivity.
  - apply contains_false_not_occurs. vm_compute. reflexivity.
Defined.

(** C3 on the code: an article collected exactly 7 days before the purge
    is still in the inbox after it. *)
Lemma purge_keeps_article_aged_ttl :
  (timedelta_days 7 - art_collected_at demo_a0 = timedelta_days 7)%Z
  /\ In demo_a0
       (inbox_articles (purge_old_inbox (timedelta_days 7) 7 demo_st)).
Proof.
  split; [reflexivity |]. vm_compute. left. reflexivity.
Qed.

Lemma purge_old_inbox_exact_witness :
  ~ In demo_a0 (inbox_articles (purge_old_inbox (timedelta_days 8) 7 demo_st))
  /\ In demo_a2
       (inbox_articles (purge_old_inbox (timedelta_days 8) 7 demo_st)).
Proof.
  split.
  - refine (proj1 (proj2 (purge_old_inbox_exact (timedelta_days 8) 7 demo_st
                            demo_a0)) _).
    vm_compute. reflexivity.
  - refine (proj2 (proj2 (purge_old_inbox_exact (timedelta_days 8) 7 demo_st
                            demo_a2)) _ _).
    + right. right. left. reflexivity.
    + vm_compute. reflexivity.
Defined.

Lemma refresh_alerts_exact_witness :
  In (alert_of demo_a2) (alerts (refresh_alerts demo_st))
  /\ List.map alert_time (alerts (refresh_alerts demo_st)) = [30; 20]%Z.
Proof.
  split.
  - refine (proj1 (proj2 (proj2 (proj2 (refresh_alerts_exact demo_st))))
              demo_a2 _ _).
    + right. right. left. reflexivity.
    + reflexivity.
  - vm_compute. reflexivity.
Defined.

Lemma collect_news_links_unique_witness :
  NoDup (List.map art_link (inbox_articles demo_st))
  /\ NoDup (List.map art_link
       (inbox_articles
          (fst (collect_news_from_naver demo_library demo_world_repeating
                  demo_st))))
  /\ length (inbox_articles
       (fst (collect_news_from_naver demo_library demo_world_repeating
               demo_st))) = 5%nat.
Proof.
  assert (H : NoDup (List.map art_link (inbox_articles demo_st))).
  { apply (bool_decide_unpack _). vm_compute. exact I. }
  split; [exact H |]. split.
  - exact (proj1 (collect_news_links_unique demo_library demo_world_repeating
                    demo_st H)).
  - vm_compute. reflexivity.
Defined.

Lemma only_scheduled_collect_updates_last_run_witness :
  snd (collect_news_from_naver demo_library (demo_world [None]) demo_st)
  = (0%nat, error)
  /\ last_auto_collect_at
       (run_hourly_auto_collect demo_library (demo_world [None])
          (timedelta_hours 1) demo_st) = timedelta_hours 1
  /\ last_auto_collect_at (manual_collect demo_library (demo_world [None]) demo_st)
     = last_auto_collect_at demo_st.
Proof.
  split; [vm_compute; reflexivity |]. split.
  - refine (proj1 (proj1
      (only_scheduled_collect_updates_last_run demo_library
         (demo_world [None]) (timedelta_hours 1) demo_st) _ _ _)).
    + reflexivity.
    + vm_compute. reflexivity.
    + vm_compute. discriminate.
  - exact (proj2 (proj2 (proj2
      (only_scheduled_collect_updates_last_run demo_library
         (demo_world [None]) (timedelta_hours 1) demo_st)))).
Defined.

Lemma delete_folders_counts_witness :
  [py "보도자료"] <> []
  /\ (FALLBACK_FOLDER ∉ [py "보도자료"])
  /\ FALLBACK_FOLDER ∈ folders (delete_folders [py "보도자료"] false demo_st)
  /\ length (saved_articles (delete_folders [py "보도자료"] false demo_st))
     = 2%nat
  /\ length (saved_articles (delete_folders [py "보도자료"] true demo_st))
     = 1%nat.
Proof.
  assert (H1 : [py "보도자료"] <> []) by (vm_compute; discriminate).
  assert (H2 : FALLBACK_FOLDER ∉ [py "보도자료"]).
  { apply (bool_decide_unpack _). vm_compute. exact I. }
  split; [exact H1 |]. split; [exact H2 |]. split.
  - exact (proj2 (proj2 (proj2 (proj2
      (delete_folders_counts [py "보도자료"] demo_st)))) H1 H2).
  - split; vm_compute; reflexivity.
Defined.

Lemma promotion_rewrites_press_only_witness :
  exists a',
    (inbox_articles
       (page_inbox_save demo_library (demo_world []) ALL_LABEL (py "보도자료")
          (tick_all_typing "조선일보") demo_st)) !! 1%nat = Some a'
    /\ art_press a' = py "조선일보"
    /\ art_link a' = art_link demo_a1.
Proof.
  exists (set_press demo_a1 (py "조선일보")).
  assert (H : (inbox_articles
       (page_inbox_save demo_library (demo_world []) ALL_LABEL (py "보도자료")
          (tick_all_typing "조선일보") demo_st)) !! 1%nat
       = Some (set_press demo_a1 (py "조선일보")))
    by (vm_compute; reflexivity).
  split; [exact H |]. split; [reflexivity |].
  refine (proj1 (proj2 (proj2 (proj2
    (proj1 (proj2
      (promotion_rewrites_press_only demo_library (demo_world []) ALL_LABEL
         (py "보도자료") (tick_all_typing "조선일보") demo_st))
       1%nat demo_a1 (set_press demo_a1 (py "조선일보")) _ H))))).
  reflexivity.
Defined.

Lemma promotion_idempotent_witness :
  page_inbox_save demo_library (demo_world []) ALL_LABEL (py "보도자료")
    tick_first demo_st = demo_st
  /\ NoDup (List.map article_id
       (saved_articles
          (page_inbox_save demo_library (demo_world []) ALL_LABEL
             (py "보도자료") tick_all demo_st)))
  /\ length (saved_articles
       (page_inbox_save demo_library (demo_world []) ALL_LABEL
          (py "보도자료") tick_all demo_st)) = 4%nat.
Proof.
  split; [| split].
  - refine (proj1 (proj2
      (promotion_idempotent demo_library (demo_world []) ALL_LABEL
         (py "보도자료") tick_first demo_st)) _).
    apply Forall_forall. apply (bool_decide_unpack _). vm_compute. exact I.
  - refine (proj2 (proj1 (proj2 (proj2
      (promotion_idempotent demo_library (demo_world []) ALL_LABEL
         (py "보도자료") tick_all demo_st))) _ _)).
    + apply (bool_decide_unpack _). vm_compute. exact I.
    + apply (bool_decide_unpack _). vm_compute. exact I.
  - vm_compute. reflexivity.
Defined.

(** * Further properties of the code *)

(** ** Trimming and tag removal *)

Lemma lstrip_fixed (s : str) :
  match s with [] => True | c :: _ => is_space c = false end ->
  lstrip s = s.
Proof. destruct s as [|c t]; simpl; [reflexivity |]. intros ->. reflexivity. Qed.

Lemma lstrip_head (s : str) :
  match lstrip s with [] => True | c :: _ => is_space c = false end.
Proof.
  induction s as [|c t IH]; simpl; [exact I |].
  destruct (is_space c) eqn:E; [exact IH | simpl; exact E].
Qed.

Lemma lstrip_suffix (s : str) : exists p, s = p ++ lstrip s.
Proof.
  induction s as [|c t [p IH]]; simpl; [exists []; reflexivity |].
  destruct (is_space c).
  - exists (c :: p). simpl. rewrite <- IH. reflexivity.
  - exists []. reflexivity.
Qed.

Lemma strip_strip (s : str) : strip (strip s) = strip s.
Proof.
  unfold strip, rstrip.
  set (u := lstrip s).
  assert (Hu := lstrip_head s). fold u in Hu.
  set (v := lstrip (rev u)).
  assert (Hv := lstrip_head (rev u)). fold v in Hv.
  destruct (lstrip_suffix (rev u)) as [p Hp]. fold v in Hp.
  assert (Hw : lstrip (rev v) = rev v).
  { apply lstrip_fixed.
    assert (E : u = rev v ++ rev p).
    { rewrite <- (rev_involutive u), Hp, rev_app_distr. reflexivity. }
    destruct (rev v) as [|c w]; [exact I |].
    rewrite E in Hu. exact Hu. }
  rewrite Hw, rev_involutive.
  rewrite (lstrip_fixed v Hv). reflexivity.
Qed.

Lemma strip_tags_no_gt (inside : bool) (s : str) :
  existsb (fun c => c =? 62) s = false ->
  existsb (fun c => c =? 62) (strip_tags inside s) = false.
Proof.
  revert inside. induction s as [|c t IH]; intros inside H; simpl in *.
  - reflexivity.
  - apply orb_false_iff in H as [Hc Ht].
    destruct inside.
    + apply IH, Ht.
    + destruct ((c =? 60) && tag_ahead t).
      * apply IH, Ht.
      * simpl. rewrite Hc. apply IH, Ht.
Qed.

Lemma strip_tags_keeps_no_tag (t : str) :
  tag_ahead t = false -> tag_ahead (strip_tags false t) = false.
Proof.
  destruct t as [|d t']; [reflexivity |].
  unfold tag_ahead at 1. intros H.
  destruct (d =? 62) eqn:Ed.
  - apply N.eqb_eq in Ed. subst d. simpl. reflexivity.
  - simpl in H.
    assert (Hno : existsb (fun c => c =? 62) (d :: t') = false).
    { simpl. exact H. }
    pose proof (strip_tags_no_gt false (d :: t') Hno) as Hr.
    destruct (strip_tags false (d :: t')) as [|e r]; [reflexivity |].
    unfold tag_ahead. rewrite Hr. apply andb_false_r.
Qed.

(** The tag removal of [clean_html] leaves no tag behind, whatever the
    text: removing tags from its result changes nothing.  A text without
    [<] is returned as it is. *)
Theorem strip_tags_complete (text : str) :
  strip_tags false (strip_tags false text) = strip_tags false text
  /\ (existsb (fun c => c =? 60) text = false ->
      strip_tags false text = text).
Proof.
  split.
  - assert (H : forall inside,
               strip_tags false (strip_tags inside text)
               = strip_tags inside text).
    { induction text as [|c t IH]; intros inside; simpl; [reflexivity |].
      destruct inside; [apply IH |].
      destruct ((c =? 60) && tag_ahead t) eqn:E; [apply IH |].
      simpl.
      assert (E' : (c =? 60) && tag_ahead (strip_tags false t) = false).
      { apply andb_false_iff in E as [E | E].
        - rewrite E. reflexivity.
        - rewrite (strip_tags_keeps_no_tag t E). apply andb_false_r. }
      rewrite E', IH. reflexivity. }
    apply H.
  - induction text as [|c t IH]; simpl; [reflexivity |].
    intros H. apply orb_false_iff in H as [Hc Ht].
    rewrite Hc. simpl. rewrite (IH Ht). reflexivity.
Qed.

(** [clean_html] never returns a text with white space at either end:
    trimming its result changes nothing. *)
Theorem clean_html_trimmed (L : Library) (text : str) :
  strip (clean_html L text) = clean_html L text
  /\ match clean_html L text with
     | [] => True
     | c :: _ => is_space c = false
     end
  /\ match rev (clean_html L text) with
     | [] => True
     | c :: _ => is_space c = false
     end.
Proof.
  unfold clean_html. split; [apply strip_strip |].
  set (u := html_unescape L (strip_tags false text)).
  unfold strip, rstrip. rewrite rev_involutive.
  split; [| apply lstrip_head].
  assert (Hu := lstrip_head u).
  destruct (lstrip_suffix (rev (lstrip u))) as [p Hp].
  assert (E : lstrip u = rev (lstrip (rev (lstrip u))) ++ rev p).
  { rewrite <- (rev_involutive (lstrip u)) at 1.
    rewrite Hp at 1. rewrite rev_app_distr. reflexivity. }
  destruct (rev (lstrip (rev (lstrip u)))) as [|c w]; [exact I |].
  rewrite E in Hu. exact Hu.
Qed.

(** ** Press names *)

Lemma split_from_parts (sep : N) (s cur : str) :
  ~ In sep cur ->
  Forall (fun p => ~ In sep p) (split_from sep cur s).
Proof.
  revert cur. induction s as [|c t IH]; intros cur Hcur; simpl.
  - constructor; [| constructor]. rewrite <- in_rev. exact Hcur.
  - destruct (c =? sep) eqn:E.
    + constructor; [rewrite <- in_rev; exact Hcur |].
      apply IH. intros [].
    + apply IH. intros [-> | H]; [| contradiction].
      rewrite N.eqb_refl in E. discriminate.
Qed.

Lemma split_from_one (sep : N) (s cur : str) :
  (1 <= length (split_from sep cur s))%nat.
Proof.
  revert cur. induction s as [|c t IH]; intros cur; simpl; [lia |].
  destruct (c =? sep); simpl; [lia | apply IH].
Qed.

Lemma split_from_two (sep : N) (s cur : str) :
  In sep s -> (2 <= length (split_from sep cur s))%nat.
Proof.
  revert cur. induction s as [|c t IH]; intros cur H; simpl; [contradiction |].
  destruct (c =? sep) eqn:E.
  - simpl. pose proof (split_from_one sep t []). lia.
  - destruct H as [-> | H]; [rewrite N.eqb_refl in E; discriminate |].
    apply IH, H.
Qed.

Lemma first_alias_in_table (table : list (str * str)) (s ko_name : str) :
  first_alias table s = Some ko_name ->
  exists key, In (key, ko_name) table.
Proof.
  induction table as [|[k n] rest IH]; simpl; [discriminate |].
  destruct (contains k s).
  - intros [= ->]. exists k. left. reflexivity.
  - intros H. destruct (IH H) as [key Hk]. exists key. right. exact Hk.
Qed.

Lemma press_names_korean :
  Forall (fun e => strip (snd e) = snd e
                   /\ nonempty (snd e) && has_korean (snd e) = true)
    PRESS_NAME_MAP.
Proof. repeat constructor. Qed.

Section PressProperties.
Variable L : Library.

Lemma normalize_korean_fixed (v link : str) :
  strip v = v -> nonempty v && has_korean v = true ->
  normalize_press_name L v link = v.
Proof.
  intros Hs Hk. unfold normalize_press_name. rewrite Hs, Hk. reflexivity.
Qed.

Lemma normalize_alias_fixed (s ko_name link : str) :
  first_alias PRESS_NAME_MAP s = Some ko_name ->
  normalize_press_name L ko_name link = ko_name.
Proof.
  intros H. destruct (first_alias_in_table _ _ _ H) as [key Hin].
  pose proof press_names_korean as Hall. rewrite List.Forall_forall in Hall.
  destruct (Hall _ Hin) as [Hs Hk]. simpl in Hs, Hk.
  apply normalize_korean_fixed; assumption.
Qed.

Lemma guess_press_from_link_dotless (link : str) :
  ~ In 46 (guess_press_from_link L link).
Proof.
  assert (Hu : ~ In 46 UNKNOWN_PRESS).
  { vm_compute. intros H. repeat (destruct H as [H | H]; [discriminate |]).
    exact H. }
  unfold guess_press_from_link.
  destruct (urlparse_netloc L link) as [netloc|]; [| exact Hu].
  set (host := remove_all (py "www.") (str_lower L netloc)).
  destruct (nonempty host); cbn [negb]; [| exact Hu].
  destruct (2 <=? length (split 46 host))%nat eqn:E.
  - pose proof (split_from_parts 46 host [] (fun H => H)) as Hparts.
    fold (split 46 host) in Hparts. rewrite List.Forall_forall in Hparts.
    destruct (nth_in_or_default (length (split 46 host) - 2)
                (split 46 host) []) as [Hin | ->].
    + apply Hparts, Hin.
    + intros [].
  - intros Hdot. apply Nat.leb_gt in E.
    pose proof (split_from_two 46 host [] Hdot) as H2.
    fold (split 46 host) in H2. lia.
Qed.

(** The token guessed from a link never holds a dot: it is one label of
    the host, the whole host when it has a single label, or the
    unknown-publisher text. *)
Theorem guess_press_from_link_no_dot (link : str) :
  existsb (fun c => c =? 46) (guess_press_from_link L link) = false.
Proof.
  destruct (existsb _ _) eqn:E; [| reflexivity].
  apply existsb_exists in E as (c & Hc & Ec).
  apply N.eqb_eq in Ec. subst c.
  exfalso. exact (guess_press_from_link_dotless link Hc).
Qed.

Lemma normalize_twice (raw_press link : str) :
  strip (guess_press_from_link L link) = guess_press_from_link L link ->
  normalize_press_name L (normalize_press_name L raw_press link) link
  = normalize_press_name L raw_press link.
Proof.
  intros Hhost.
  unfold normalize_press_name at 2 3.
  set (value := strip raw_press).
  assert (Hvalue : strip value = value) by apply strip_strip.
  destruct (nonempty value && has_korean value) eqn:Hk.
  { apply normalize_korean_fixed; assumption. }
  destruct (first_alias PRESS_NAME_MAP (remove_spaces (str_lower L value)))
    as [ko|] eqn:H1.
  { eapply normalize_alias_fixed, H1. }
  destruct (first_alias PRESS_NAME_MAP
              (remove_spaces (str_lower L (guess_press_from_link L link))))
    as [ko|] eqn:H2.
  { eapply normalize_alias_fixed, H2. }
  destruct (nonempty value) eqn:Hne.
  - unfold normalize_press_name. simpl in Hk.
    rewrite Hvalue, Hne, Hk. cbn [andb]. rewrite H1, H2. reflexivity.
  - unfold normalize_press_name. rewrite Hhost.
    destruct (nonempty (guess_press_from_link L link)
              && has_korean (guess_press_from_link L link)); [reflexivity |].
    rewrite H2.
    destruct (nonempty (guess_press_from_link L link)); reflexivity.
Qed.

Lemma normalize_trimmed (raw_press link : str) :
  strip (guess_press_from_link L link) = guess_press_from_link L link ->
  strip (normalize_press_name L raw_press link)
  = normalize_press_name L raw_press link.
Proof.
  intros Hhost. unfold normalize_press_name.
  assert (Hko : forall s ko,
             first_alias PRESS_NAME_MAP s = Some ko -> strip ko = ko).
  { intros s ko H. destruct (first_alias_in_table _ _ _ H) as [key Hin].
    pose proof press_names_korean as Hall. rewrite List.Forall_forall in Hall.
    apply (Hall _ Hin). }
  destruct (nonempty (strip raw_press) && has_korean (strip raw_press));
    [apply strip_strip |].
  destruct (first_alias PRESS_NAME_MAP
              (remove_spaces (str_lower L (strip raw_press)))) eqn:H1;
    [eapply Hko, H1 |].
  destruct (first_alias PRESS_NAME_MAP
              (remove_spaces (str_lower L (guess_press_from_link L link))))
    eqn:H2; [eapply Hko, H2 |].
  destruct (nonempty (strip raw_press)); [apply strip_strip | exact Hhost].
Qed.

(** Normalising a press name that is already normalised changes nothing,
    and a normalised name has no white space at its ends, for a link whose
    guessed token has none.  This is what lets the tables of [page_inbox]
    and [page_saved_db] normalise the stored press again at every
    display. *)
Theorem normalize_press_name_idempotent (raw_press link : str) :
  strip (guess_press_from_link L link) = guess_press_from_link L link ->
  normalize_press_name L (normalize_press_name L raw_press link) link
  = normalize_press_name L raw_press link
  /\ strip (normalize_press_name L raw_press link)
     = normalize_press_name L raw_press link.
Proof.
  intros Hhost. split; [apply normalize_twice | apply normalize_trimmed];
    exact Hhost.
Qed.

End PressProperties.

(** ** Article factory *)

Lemma join_nonempty (sep p : str) (rest : list str) :
  p <> [] -> join sep (p :: rest) <> [].
Proof.
  intros Hp. simpl. destruct rest; [exact Hp |].
  destruct p; [contradiction | discriminate].
Qed.

(** An article is flagged negative exactly when a term of the watch list
    occurs in its title or in its summary, and exactly then its list of
    hits is not empty. *)
Theorem make_article_classifies (uid : str) (now : datetime)
    (title press : str) (published_at : datetime)
    (link summary query_keyword : str) :
  let a :=
    make_article uid now title press published_at link summary query_keyword in
  (art_is_negative a = true <->
   exists kw, In kw NEGATIVE_KEYWORDS
              /\ (occurs_in kw title \/ occurs_in kw summary))
  /\ (art_is_negative a = true <-> art_negative_hits a <> []).
Proof.
  cbv zeta. unfold make_article. cbn [art_is_negative art_negative_hits].
  set (hits := List.filter
                 (fun kw => contains kw title || contains kw summary)
                 NEGATIVE_KEYWORDS).
  assert (Hin : forall kw, In kw hits <->
            In kw NEGATIVE_KEYWORDS
            /\ (occurs_in kw title \/ occurs_in kw summary)).
  { intros kw. unfold hits. rewrite filter_In, orb_true_iff.
    rewrite !contains_occurs_in. reflexivity. }
  clearbody hits. split.
  - split.
    + intros H. destruct hits as [|kw rest]; [simpl in H; discriminate |].
      exists kw. apply Hin. left. reflexivity.
    + intros (kw & Hkw). apply Hin in Hkw.
      destruct hits; [contradiction | reflexivity].
  - destruct hits as [|kw rest] eqn:E.
    + simpl. split; [discriminate | intros H; contradiction].
    + split; [| reflexivity]. intros _.
      apply join_nonempty.
      assert (Hk : In kw NEGATIVE_KEYWORDS) by (apply Hin; left; reflexivity).
      intros ->. vm_compute in Hk.
      repeat (destruct Hk as [Hk | Hk]; [discriminate |]). exact Hk.
Qed.

(** ** Ingestion, further *)

Section IngestionFurther.
Variable L : Library.
Variable W : World.

Lemma extends_run_refl (kws : list str) (c : Collect) : extends_run L kws c c.
Proof. exists []. repeat split; [constructor | set_solver]. Qed.

Lemma extends_run_trans (kws : list str) (c1 c2 c3 : Collect) :
  extends_run L kws c1 c2 -> extends_run L kws c2 c3 ->
  extends_run L kws c1 c3.
Proof.
  intros (n1 & Hi1 & Ha1 & Hf1 & Hs1) (n2 & Hi2 & Ha2 & Hf2 & Hs2).
  exists (n2 ++ n1). repeat split.
  - rewrite Hi2, Hi1, app_assoc. reflexivity.
  - rewrite Ha2, Ha1, length_app. lia.
  - apply Forall_app. split; [| exact Hf1].
    eapply Forall_impl; [exact Hf2 |].
    intros a (H1 & H2 & H3 & H4).
    repeat split; [exact H1 | | exact H3 | exact H4].
    intros Hin. apply H2, Hs1, Hin.
  - set_solver.
Qed.

Lemma collect_item_extends (kws : list str) (keyword : str) (c : Collect)
    (item : Item) :
  In keyword kws -> extends_run L kws c (collect_item L W keyword c item).
Proof.
  intros Hkw. unfold collect_item.
  destruct (resolved_link item) as [|ch l] eqn:E;
    [apply extends_run_refl |].
  cbn [nonempty negb orb]. case_bool_decide as Hmem;
    [apply extends_run_refl |].
  eexists [_]. simpl. repeat split.
  - constructor; [| constructor]. simpl. repeat split;
      [discriminate | exact Hmem | exact Hkw |].
    eexists. reflexivity.
  - set_solver.
Qed.

Lemma collect_items_extends (kws : list str) (keyword : str)
    (items : list Item) (c : Collect) :
  In keyword kws ->
  extends_run L kws c (fold_left (collect_item L W keyword) items c).
Proof.
  intros Hkw. revert c. induction items as [|item items IH]; intros c; simpl.
  - apply extends_run_refl.
  - eapply extends_run_trans; [apply collect_item_extends, Hkw | apply IH].
Qed.

Lemma collect_keywords_extends (all kws : list str) (k : nat) (c : Collect) :
  (forall kw, In kw kws -> In kw all) ->
  extends_run L all c (fst (collect_keywords L W k kws c)).
Proof.
  revert k c. induction kws as [|keyword rest IH]; intros k c Hsub; simpl.
  - apply extends_run_refl.
  - destruct (fetch_items W k keyword) as [items|]; simpl.
    + eapply extends_run_trans.
      * apply collect_items_extends, Hsub. left. reflexivity.
      * apply IH. intros kw Hkw. apply Hsub. right. exact Hkw.
    + apply extends_run_refl.
Qed.

End IngestionFurther.

Lemma set_inbox_same (st : State) :
  set_inbox_articles st (inbox_articles st) = st.
Proof. destruct st; reflexivity. Qed.

Section CollectFurther.
Variable L : Library.
Variable W : World.

(** The run of [collect_news_from_naver] once the credentials are there. *)
Lemma collect_ready (st : State) :
  naver_api_ready W = true ->
  let kws :=
    match keywords st with [] => [py "삼성화재"] | _ => keywords st end in
  let r :=
    collect_keywords L W 0 kws
      {| c_inbox := inbox_articles st;
         c_existing_links := list_to_set (List.map art_link (inbox_articles st));
         c_added := 0 |} in
  collect_news_from_naver L W st
  = (set_inbox_articles st (c_inbox (fst r)),
     if snd r then (c_added (fst r), api) else (0%nat, error)).
Proof.
  intros Hready. cbv zeta. unfold collect_news_from_naver. rewrite Hready.
  cbn [negb].
  match goal with
  | |- context [collect_keywords L W 0 ?kws ?c0] =>
      destruct (collect_keywords L W 0 kws c0) as [c ok]
  end.
  reflexivity.
Qed.

Lemma collect_frame (st : State) :
  keywords (fst (collect_news_from_naver L W st)) = keywords st
  /\ folders (fst (collect_news_from_naver L W st)) = folders st
  /\ saved_articles (fst (collect_news_from_naver L W st)) = saved_articles st
  /\ alerts (fst (collect_news_from_naver L W st)) = alerts st
  /\ auto_collect_enabled (fst (collect_news_from_naver L W st))
     = auto_collect_enabled st
  /\ last_auto_collect_at (fst (collect_news_from_naver L W st))
     = last_auto_collect_at st.
Proof.
  unfold collect_news_from_naver.
  destruct (negb (naver_api_ready W)); [repeat split |].
  match goal with
  | |- context [collect_keywords L W 0 ?kws ?c0] =>
      destruct (collect_keywords L W 0 kws c0) as [c ok]
  end.
  repeat split.
Qed.

(** Without both credentials nothing is requested and nothing changes,
    and this is the only way to the outcome [no_key]. *)
Theorem collect_without_credentials (st : State) :
  (naver_api_ready W = false ->
   collect_news_from_naver L W st = (st, (0%nat, no_key)))
  /\ (snd (snd (collect_news_from_naver L W st)) = no_key <->
      NAVER_CLIENT_ID W = [] \/ NAVER_CLIENT_SECRET W = []).
Proof.
  split.
  - intros H. unfold collect_news_from_naver. rewrite H. reflexivity.
  - assert (Hr : naver_api_ready W = false <->
                 NAVER_CLIENT_ID W = [] \/ NAVER_CLIENT_SECRET W = []).
    { unfold naver_api_ready.
      destruct (NAVER_CLIENT_ID W), (NAVER_CLIENT_SECRET W); simpl;
        split; intros H; auto; try discriminate;
        destruct H as [H | H]; discriminate. }
    rewrite <- Hr.
    destruct (naver_api_ready W) eqn:E.
    + rewrite (collect_ready st E). cbv zeta.
      match goal with
      | |- context [collect_keywords L W 0 ?kws ?c0] =>
          destruct (collect_keywords L W 0 kws c0) as [c ok]
      end.
      destruct ok; simpl; split; discriminate.
    + unfold collect_news_from_naver. rewrite E. simpl. split; reflexivity.
Qed.

(** A run only puts articles in front of the inbox: the articles that
    were there stay, in their order; every article put in front has a link
    that is not empty and was not in the inbox, carries a keyword of the
    run, and has a normalised press; on the outcome [api] the count returned
    is the number of these articles.  No other key of the session state
    changes. *)
Theorem collect_prepends (st : State) :
  let result := collect_news_from_naver L W st in
  let kws :=
    match keywords st with [] => [py "삼성화재"] | _ => keywords st end in
  (exists new,
      inbox_articles (fst result) = new ++ inbox_articles st
      /\ Forall (fun a => art_link a <> []
                          /\ ~ In (art_link a)
                                 (List.map art_link (inbox_articles st))
                          /\ In (art_query_keyword a) kws
                          /\ press_normalised L a) new
      /\ (forall n, snd result = (n, api) -> n = length new))
  /\ keywords (fst result) = keywords st
  /\ folders (fst result) = folders st
  /\ saved_articles (fst result) = saved_articles st
  /\ alerts (fst result) = alerts st
  /\ auto_collect_enabled (fst result) = auto_collect_enabled st
  /\ last_auto_collect_at (fst result) = last_auto_collect_at st.
Proof.
  cbv zeta. destruct (naver_api_ready W) eqn:E.
  - rewrite (collect_ready st E). cbv zeta.
    match goal with
    | |- context [collect_keywords L W 0 ?kws ?c0] =>
        pose proof (collect_keywords_extends L W kws kws 0 c0
                      (fun kw H => H)) as (new & Hi & Ha & Hf & _);
        destruct (collect_keywords L W 0 kws c0) as [c ok]
    end.
    simpl in *. split; [| repeat split].
    exists new. split; [exact Hi |]. split.
    + eapply Forall_impl; [exact Hf |].
      intros a (H1 & H2 & H3 & H4).
      repeat split; [exact H1 | | exact H3 | exact H4].
      intros Hin. apply H2, elem_of_list_to_set, list_elem_of_In, Hin.
    + intros n Hn. destruct ok; [| discriminate].
      injection Hn as <-. lia.
  - unfold collect_news_from_naver. rewrite E. simpl.
    split; [| repeat split].
    exists []. repeat split; [constructor | intros n H; discriminate].
Qed.

(** When the request for the first keyword fails, the run returns
    [(0, "error")] and the state is as before. *)
Theorem collect_first_request_fails (st : State) :
  naver_api_ready W = true ->
  fetch_items W 0
    (match keywords st with [] => py "삼성화재" | kw :: _ => kw end) = None ->
  collect_news_from_naver L W st = (st, (0%nat, error)).
Proof.
  intros Hready Hfail. rewrite (collect_ready st Hready). cbv zeta.
  destruct (keywords st) as [|kw rest]; simpl; rewrite Hfail; simpl;
    rewrite set_inbox_same; reflexivity.
Qed.

(** ** Scheduler, further *)

(** After a tick that collected, a tick less than an hour later does
    nothing, whatever the first collection returned and whatever the world
    is by then. *)
Theorem tick_within_the_hour_is_idle (W' : World) (now now' : datetime)
    (st : State) :
  auto_collect_enabled st = true ->
  naver_api_ready W = true ->
  (timedelta_hours 1 <= now - last_auto_collect_at st)%Z ->
  (now' - now < timedelta_hours 1)%Z ->
  run_hourly_auto_collect L W' now' (run_hourly_auto_collect L W now st)
  = run_hourly_auto_collect L W now st.
Proof.
  intros Hen Hready Hdue Hsoon.
  assert (E : run_hourly_auto_collect L W now st
              = set_last_auto_collect_at
                  (refresh_alerts (fst (collect_news_from_naver L W st))) now).
  { unfold run_hourly_auto_collect. rewrite Hen, Hready.
    apply Z.leb_le in Hdue. rewrite Hdue. simpl.
    destruct (collect_news_from_naver L W st). reflexivity. }
  rewrite E. unfold run_hourly_auto_collect at 1.
  cbn [last_auto_collect_at set_last_auto_collect_at].
  destruct (negb (auto_collect_enabled _)); [reflexivity |].
  destruct (negb (naver_api_ready W')); [reflexivity |].
  apply Z.leb_gt in Hsoon. rewrite Hsoon. reflexivity.
Qed.

End CollectFurther.

(** ** Expiry and alerts, further *)

Lemma filter_filter_absorb {A} (f g : A -> bool) (l : list A) :
  (forall x, f x = true -> g x = true) ->
  List.filter f (List.filter g l) = List.filter f l.
Proof.
  intros H. induction l as [|x l IH]; simpl; [reflexivity |].
  destruct (g x) eqn:Eg; simpl.
  - rewrite IH. reflexivity.
  - destruct (f x) eqn:Ef; [| exact IH].
    rewrite (H x Ef) in Eg. discriminate.
Qed.

(** A purge makes every earlier purge with the same number of days
    redundant; in particular, purging twice at the same time is purging
    once. *)
Theorem purge_old_inbox_absorbs (now1 now2 : datetime) (days : Z)
    (st : State) :
  (now1 <= now2)%Z ->
  purge_old_inbox now2 days (purge_old_inbox now1 days st)
  = purge_old_inbox now2 days st.
Proof.
  intros Hle. unfold purge_old_inbox. destruct st; simpl. f_equal.
  apply filter_filter_absorb. intros a H.
  apply Z.leb_le in H. apply Z.leb_le. lia.
Qed.

Lemma alerts_same_but_press (l l' : list Article) :
  Forall2 same_but_press l l' ->
  List.map alert_of (List.filter art_is_negative l')
  = List.map alert_of (List.filter art_is_negative l).
Proof.
  induction 1 as [|a a' l l' Ha _ IH]; simpl; [reflexivity |].
  unfold same_but_press in Ha.
  assert (Hn : art_is_negative a' = art_is_negative a)
    by (rewrite Ha; reflexivity).
  assert (Hal : alert_of a' = alert_of a) by (rewrite Ha; reflexivity).
  rewrite Hn. destruct (art_is_negative a); simpl; rewrite IH;
    [rewrite Hal |]; reflexivity.
Qed.

Section FreshAlerts.
Variable L : Library.
Variable W : World.

Lemma page_inbox_save_same_but_press (label target_folder : str)
    (user : nat -> RowEdit) (st : State) :
  Forall2 same_but_press (inbox_articles st)
    (inbox_articles (page_inbox_save L W label target_folder user st))
  /\ alerts (page_inbox_save L W label target_folder user st) = alerts st.
Proof.
  rewrite page_inbox_save_fold. simpl. split; [| reflexivity].
  match goal with
  | |- context [fold_left (save_article _ _ _ ?rs ?sel ?ex) ?ps ?s0] =>
      destruct (save_articles_fold L W target_folder rs sel ex ps s0
                  (filtered_positions_NoDup label (inbox_articles st)))
        as (Hsame & _)
  end.
  exact Hsame.
Qed.

(** Every handler that changes the inbox leaves the alerts equal to what
    [refresh_alerts] computes from the new inbox: the tick that collects,
    the manual collection, the emptying of the inbox, the prologue of
    [main].  Saving from the inbox, which rewrites the press of the
    articles it saves, does not make the alerts stale. *)
Theorem alerts_stay_fresh (st : State) :
  (forall now,
      auto_collect_enabled st = true ->
      naver_api_ready W = true ->
      (timedelta_hours 1 <= now - last_auto_collect_at st)%Z ->
      alerts_fresh (run_hourly_auto_collect L W now st))
  /\ alerts_fresh (manual_collect L W st)
  /\ alerts_fresh (clear_inbox st)
  /\ (forall now_tick now_purge,
        alerts_fresh (main_prologue L W now_tick now_purge st))
  /\ (forall label target_folder user,
        alerts_fresh st ->
        alerts_fresh (page_inbox_save L W label target_folder user st)).
Proof.
  unfold alerts_fresh. repeat apply conj.
  - intros now Hen Hready Hdue. unfold run_hourly_auto_collect.
    rewrite Hen, Hready. apply Z.leb_le in Hdue. rewrite Hdue. simpl.
    destruct (collect_news_from_naver L W st). reflexivity.
  - unfold manual_collect.
    destruct (collect_news_from_naver L W st). reflexivity.
  - reflexivity.
  - intros now_tick now_purge. reflexivity.
  - intros label target_folder user Hfresh.
    destruct (page_inbox_save_same_but_press label target_folder user st)
      as [Hsame Hal].
    rewrite Hal, (alerts_same_but_press _ _ Hsame). exact Hfresh.
Qed.

Lemma collect_links_NoDup (st : State) :
  NoDup (List.map art_link (inbox_articles st)) ->
  NoDup (List.map art_link
           (inbox_articles (fst (collect_news_from_naver L W st)))).
Proof.
  intros Hnd.
  destruct (collect_inbox L W st) as [-> | [kws ->]]; [exact Hnd |].
  apply collect_keywords_tracked. split; simpl; [exact Hnd |].
  intros l Hl. apply elem_of_list_to_set, Hl.
Qed.

Lemma run_hourly_inbox (now : datetime) (st : State) :
  inbox_articles (run_hourly_auto_collect L W now st) = inbox_articles st
  \/ inbox_articles (run_hourly_auto_collect L W now st)
     = inbox_articles (fst (collect_news_from_naver L W st)).
Proof.
  unfold run_hourly_auto_collect.
  destruct (negb (auto_collect_enabled st)); [left; reflexivity |].
  destruct (negb (naver_api_ready W)); [left; reflexivity |].
  destruct (_ <=? _)%Z; [| left; reflexivity].
  right. destruct (collect_news_from_naver L W st). reflexivity.
Qed.

(** After the prologue of [main], whatever the tick did: no article of
    the inbox is older than 7 days at the time of the purge; an inbox that
    had no two articles with the same link has none; and the archive, the
    folders and the keywords are as before. *)
Theorem main_prologue_keeps (now_tick now_purge : datetime) (st : State) :
  let st' := main_prologue L W now_tick now_purge st in
  (forall a, In a (inbox_articles st') ->
     (now_purge - art_collected_at a <= timedelta_days 7)%Z)
  /\ (NoDup (List.map art_link (inbox_articles st)) ->
      NoDup (List.map art_link (inbox_articles st')))
  /\ saved_articles st' = saved_articles st
  /\ folders st' = folders st
  /\ keywords st' = keywords st.
Proof.
  cbv zeta. unfold main_prologue, refresh_alerts, purge_old_inbox.
  cbn [inbox_articles set_alerts set_inbox_articles saved_articles folders
       keywords].
  assert (Hframe :
    saved_articles (run_hourly_auto_collect L W now_tick st)
      = saved_articles st
    /\ folders (run_hourly_auto_collect L W now_tick st) = folders st
    /\ keywords (run_hourly_auto_collect L W now_tick st) = keywords st).
  { unfold run_hourly_auto_collect.
    destruct (negb (auto_collect_enabled st)); [auto |].
    destruct (negb (naver_api_ready W)); [auto |].
    destruct (_ <=? _)%Z; [| auto].
    pose proof (collect_frame L W st) as (Hk & Hf & Hs & _).
    destruct (collect_news_from_naver L W st) as [st1 r]. simpl in *. auto. }
  repeat apply conj; try apply Hframe.
  - intros a Ha. apply filter_In in Ha as [_ Ha].
    apply Z.leb_le in Ha. lia.
  - intros Hnd. apply NoDup_map_filter.
    destruct (run_hourly_inbox now_tick st) as [-> | ->];
      [exact Hnd | apply collect_links_NoDup, Hnd].
Qed.

End FreshAlerts.

(** ** Keywords *)

Lemma NoDup_filter_bool {A} (f : A -> bool) (l : list A) :
  NoDup l -> NoDup (List.filter f l).
Proof.
  intros H. rewrite <- (map_id (List.filter f l)).
  apply NoDup_map_filter. rewrite map_id. exact H.
Qed.

Lemma NoDup_snoc_fresh {A} (l : list A) (x : A) :
  NoDup l -> x ∉ l -> NoDup (l ++ [x]).
Proof.
  intros Hl Hx. apply NoDup_app. split; [exact Hl |]. split.
  - intros y Hy Hin. apply list_elem_of_singleton in Hin. subst. auto.
  - apply NoDup_singleton.
Qed.

(** The keyword list stays free of repetitions, of empty keywords and of
    keywords with white space at their ends through additions and
    deletions; an addition appends the trimmed keyword when it is new and
    not empty, and a deletion removes the ticked keywords and no other. *)
Theorem keywords_stay_clean (new_keyword : str) (is_checked : str -> bool)
    (st : State) :
  let clean ks :=
    NoDup ks /\ Forall (fun kw => kw <> [] /\ strip kw = kw) ks in
  (clean (keywords st) ->
   clean (keywords (add_keyword new_keyword st))
   /\ clean (keywords (delete_keywords is_checked st)))
  /\ (forall kw,
        In kw (keywords (add_keyword new_keyword st)) <->
        In kw (keywords st) \/ (kw = strip new_keyword /\ kw <> []))
  /\ (forall kw,
        In kw (keywords (delete_keywords is_checked st)) <->
        In kw (keywords st) /\ is_checked kw = false).
Proof.
  cbv zeta. split; [| split].
  - intros [Hnd Hall]. split.
    + unfold add_keyword.
      destruct (strip new_keyword) as [|c w] eqn:E; [split; assumption |].
      cbn [nonempty negb]. case_bool_decide as Hin; [split; assumption |].
      simpl. split; [apply NoDup_snoc_fresh; assumption |].
      apply Forall_app. split; [exact Hall |].
      constructor; [| constructor]. split; [discriminate |].
      rewrite <- E. apply strip_strip.
    + unfold delete_keywords.
      destruct (keywords st) as [|k0 ks] eqn:Ek;
        [rewrite Ek; split; assumption |].
      destruct (List.filter is_checked (k0 :: ks));
        [rewrite Ek; split; assumption |].
      cbn [keywords set_keywords]. split.
      * apply NoDup_filter_bool, Hnd.
      * apply Forall_forall. intros kw Hkw.
        apply list_elem_of_In, filter_In in Hkw as [Hkw _].
        rewrite Forall_forall in Hall. apply Hall, list_elem_of_In, Hkw.
  - intros kw. unfold add_keyword.
    destruct (strip new_keyword) as [|c w] eqn:E.
    + simpl. split; [auto |]. intros [H | [-> H]]; [exact H | contradiction].
    + cbn [nonempty negb]. case_bool_decide as Hin.
      * split; [auto |]. intros [H | [-> _]]; [exact H |].
        apply list_elem_of_In, Hin.
      * simpl. rewrite in_app_iff. simpl. split.
        -- intros [H | [<- | []]]; [auto |]. right. split;
             [reflexivity | discriminate].
        -- intros [H | [-> _]]; auto.
  - intros kw. unfold delete_keywords.
    destruct (keywords st) as [|k0 ks] eqn:Ek.
    { rewrite Ek. simpl. split; [contradiction | intros [[] _]]. }
    destruct (List.filter is_checked (k0 :: ks)) as [|d ds] eqn:Ec.
    + rewrite Ek. split; [| intros [H _]; exact H].
      intros H. split; [exact H |].
      destruct (is_checked kw) eqn:Echk; [| reflexivity].
      assert (Hin : In kw (List.filter is_checked (k0 :: ks)))
        by (apply filter_In; auto).
      rewrite Ec in Hin. contradiction.
    + cbn [keywords set_keywords]. rewrite <- Ec, filter_In.
      rewrite negb_true_iff, bool_decide_eq_false.
      rewrite list_elem_of_In, filter_In. split.
      * intros [H Hn]. split; [exact H |].
        destruct (is_checked kw); [| reflexivity].
        exfalso. apply Hn. auto.
      * intros [H Hf]. split; [exact H |]. intros [_ Ht]. congruence.
Qed.

(** ** Folders and saved articles, further *)

Lemma delete_folders_lists (removable_folders : list str)
    (delete_with_articles : bool) (st : State) :
  removable_folders <> [] ->
  let base :=
    if delete_with_articles then folders st
    else if bool_decide (FALLBACK_FOLDER ∈ folders st) then folders st
         else folders st ++ [FALLBACK_FOLDER] in
  let remaining :=
    List.filter (fun f => negb (bool_decide (f ∈ removable_folders))) base in
  folders (delete_folders removable_folders delete_with_articles st)
  = match remaining with [] => [FALLBACK_FOLDER] | _ => remaining end.
Proof.
  intros Hne. cbv zeta. unfold delete_folders.
  destruct removable_folders as [|n ns]; [contradiction |].
  destruct delete_with_articles; [reflexivity |].
  destruct (bool_decide (FALLBACK_FOLDER ∈ folders st)); reflexivity.
Qed.

(** The folder list never becomes empty and never holds a name twice,
    through additions and deletions of folders; a deleted name is no longer
    listed, except the fallback folder when it alone is left. *)
Theorem folders_stay_listed (new_folder : str) (removable_folders : list str)
    (delete_with_articles : bool) (st : State) :
  let st_add := add_folder new_folder st in
  let st_del := delete_folders removable_folders delete_with_articles st in
  (folders st <> [] -> folders st_add <> [] /\ folders st_del <> [])
  /\ (NoDup (folders st) ->
      NoDup (folders st_add) /\ NoDup (folders st_del))
  /\ (forall f, In f removable_folders -> In f (folders st_del) ->
        f = FALLBACK_FOLDER /\ folders st_del = [FALLBACK_FOLDER]).
Proof.
  cbv zeta. split; [| split].
  - intros Hne. split.
    + unfold add_folder.
      destruct (negb (nonempty (strip new_folder))); [exact Hne |].
      case_bool_decide; [exact Hne |]. simpl.
      destruct (folders st); discriminate.
    + destruct removable_folders as [|n ns] eqn:E; [exact Hne |].
      rewrite delete_folders_lists by discriminate. cbv zeta.
      destruct (List.filter _ _); discriminate.
  - intros Hnd. split.
    + unfold add_folder.
      destruct (negb (nonempty (strip new_folder))); [exact Hnd |].
      case_bool_decide as Hin; [exact Hnd |]. simpl.
      apply NoDup_snoc_fresh; assumption.
    + destruct removable_folders as [|n ns] eqn:E; [exact Hnd |].
      rewrite delete_folders_lists by discriminate. cbv zeta.
      match goal with
      | |- context [List.filter ?f ?base] =>
          assert (Hb : NoDup (List.filter f base))
      end.
      { apply NoDup_filter_bool.
        destruct delete_with_articles; [exact Hnd |].
        case_bool_decide as Hin; [exact Hnd |].
        apply NoDup_snoc_fresh; assumption. }
      destruct (List.filter _ _); [apply NoDup_singleton | exact Hb].
  - intros f Hf Hin.
    destruct removable_folders as [|n ns] eqn:E; [contradiction |].
    rewrite <- E in *. assert (Hne : removable_folders <> [])
      by (rewrite E; discriminate).
    rewrite (delete_folders_lists _ _ _ Hne) in *. cbv zeta in *.
    destruct (List.filter _ _) as [|g gs] eqn:Ef.
    + destruct Hin as [<- | []]. split; reflexivity.
    + exfalso. rewrite <- Ef in Hin. apply filter_In in Hin as [_ Hn].
      apply negb_true_iff, bool_decide_eq_false in Hn.
      apply Hn, list_elem_of_In, Hf.
Qed.

(** Deleting folders keeps every saved article in a listed folder, when
    the articles are deleted along, or when the fallback folder is not
    among the deleted ones. *)
Theorem delete_folders_keeps_cover (removable_folders : list str)
    (delete_with_articles : bool) (st : State) :
  folders_cover_saved st ->
  delete_with_articles = true \/ ~ In FALLBACK_FOLDER removable_folders ->
  folders_cover_saved
    (delete_folders removable_folders delete_with_articles st).
Proof.
  intros Hcover Hcase. unfold folders_cover_saved in *.
  destruct removable_folders as [|n ns] eqn:E; [exact Hcover |].
  rewrite <- E in *.
  assert (Hne : removable_folders <> []) by (rewrite E; discriminate).
  rewrite (delete_folders_lists _ _ _ Hne). cbv zeta.
  assert (Hkeep : forall s',
    In s' (saved_articles
             (delete_folders removable_folders delete_with_articles st)) ->
    In (folder s')
       (List.filter (fun f => negb (bool_decide (f ∈ removable_folders)))
          (if delete_with_articles then folders st
           else if bool_decide (FALLBACK_FOLDER ∈ folders st) then folders st
                else folders st ++ [FALLBACK_FOLDER]))).
  { intros s' Hs'. apply filter_In.
    unfold delete_folders in Hs'. rewrite E in Hs'. rewrite <- E in Hs'.
    destruct delete_with_articles.
    - simpl in Hs'. apply filter_In in Hs' as [Hs' Hn]. auto.
    - destruct Hcase as [Hc | Hfb]; [discriminate |].
      assert (Hs : exists s, In s (saved_articles st)
                 /\ s' = if bool_decide (folder s ∈ removable_folders)
                         then set_folder s FALLBACK_FOLDER else s).
      { destruct (bool_decide (FALLBACK_FOLDER ∈ folders st));
          simpl in Hs'; apply in_map_iff in Hs' as (s & <- & Hs); eauto. }
      destruct Hs as (s & Hs & ->).
      case_bool_decide as Hin.
      + simpl. split.
        * case_bool_decide as Hfbin; [apply list_elem_of_In, Hfbin |].
          apply in_app_iff. right. left. reflexivity.
        * apply negb_true_iff, bool_decide_eq_false.
          intros H. apply Hfb, list_elem_of_In, H.
      + split.
        * case_bool_decide; [apply Hcover, Hs |].
          apply in_app_iff. left. apply Hcover, Hs.
        * apply negb_true_iff, bool_decide_eq_false. exact Hin. }
  intros s' Hs'. specialize (Hkeep s' Hs').
  destruct (List.filter _ _); [contradiction | exact Hkeep].
Qed.

(** Deleting the fallback folder itself without the articles, while
    another folder stays: the articles of the deleted folders are moved to
    the fallback folder, and that folder is not in the list afterwards. *)
Theorem delete_fallback_folder_dangles (removable_folders : list str)
    (st : State) (s : SavedArticle) (other : str) :
  In FALLBACK_FOLDER removable_folders ->
  In s (saved_articles st) ->
  In (folder s) removable_folders ->
  In other (folders st) ->
  ~ In other removable_folders ->
  let st' := delete_folders removable_folders false st in
  In (set_folder s FALLBACK_FOLDER) (saved_articles st')
  /\ ~ In FALLBACK_FOLDER (folders st').
Proof.
  intros Hfb Hs Hfolder Hother Hkeep. cbv zeta.
  destruct removable_folders as [|n ns] eqn:E; [contradiction |].
  rewrite <- E in *.
  assert (Hne : removable_folders <> []) by (rewrite E; discriminate).
  split.
  - unfold delete_folders. rewrite E. rewrite <- E.
    assert (Hm : In (set_folder s FALLBACK_FOLDER)
               (List.map
                  (fun saved =>
                     if bool_decide (folder saved ∈ removable_folders)
                     then set_folder saved FALLBACK_FOLDER else saved)
                  (saved_articles st))).
    { apply in_map_iff. exists s. split; [| exact Hs].
      rewrite bool_decide_eq_true_2; [reflexivity |].
      apply list_elem_of_In, Hfolder. }
    destruct (bool_decide (FALLBACK_FOLDER ∈ folders st)); exact Hm.
  - rewrite (delete_folders_lists _ _ _ Hne). cbv zeta.
    match goal with
    | |- context [List.filter ?f ?base] =>
        assert (Ho : In other (List.filter f base))
    end.
    { apply filter_In. split.
      - case_bool_decide; [exact Hother |].
        apply in_app_iff. left. exact Hother.
      - apply negb_true_iff, bool_decide_eq_false.
        intros H. apply Hkeep, list_elem_of_In, H. }
    destruct (List.filter _ _) as [|g gs] eqn:Ef; [contradiction |].
    rewrite <- Ef. intros Hin. apply filter_In in Hin as [_ Hn].
    apply negb_true_iff, bool_decide_eq_false in Hn.
    apply Hn, list_elem_of_In, Hfb.
Qed.

(** Deleting saved articles removes the ticked ones and no other, lowers
    the count by their number, and keeps the archive with at most one
    record per article and with every record in a listed folder. *)
Theorem delete_saved_exact (selected_saved_ids : list str) (st : State) :
  let st' := delete_saved selected_saved_ids st in
  (forall s, In s (saved_articles st') <->
     In s (saved_articles st) /\ ~ In (saved_id s) selected_saved_ids)
  /\ (length (saved_articles st')
      + length (List.filter
                  (fun s => bool_decide (saved_id s ∈ selected_saved_ids))
                  (saved_articles st))
      = length (saved_articles st))%nat
  /\ (NoDup (List.map article_id (saved_articles st)) ->
      NoDup (List.map article_id (saved_articles st')))
  /\ (folders_cover_saved st -> folders_cover_saved st')
  /\ inbox_articles st' = inbox_articles st.
Proof.
  cbv zeta.
  assert (E : saved_articles (delete_saved selected_saved_ids st)
              = List.filter
                  (fun s => negb (bool_decide (saved_id s ∈ selected_saved_ids)))
                  (saved_articles st)
              /\ folders (delete_saved selected_saved_ids st) = folders st
              /\ inbox_articles (delete_saved selected_saved_ids st)
                 = inbox_articles st).
  { unfold delete_saved. destruct selected_saved_ids as [|i ids];
      [| repeat split].
    repeat split.
    induction (saved_articles st) as [|s l IH]; simpl; [reflexivity |].
    f_equal. exact IH. }
  destruct E as (Es & Ef & Ei).
  assert (Hmem : forall s, In s (saved_articles
                                    (delete_saved selected_saved_ids st)) <->
            In s (saved_articles st) /\ ~ In (saved_id s) selected_saved_ids).
  { intros s. rewrite Es, filter_In, negb_true_iff, bool_decide_eq_false.
    rewrite list_elem_of_In. reflexivity. }
  repeat apply conj.
  - intros s. apply Hmem.
  - rewrite Es. apply filter_split_length.
  - intros Hnd. rewrite Es. apply NoDup_map_filter, Hnd.
  - unfold folders_cover_saved. intros Hc s Hs. rewrite Ef.
    apply Hc, Hmem, Hs.
  - exact Ei.
Qed.

(** ** The inbox page, further *)

Lemma filter_Permutation_bool {A} (f : A -> bool) (l l' : list A) :
  Permutation l l' -> Permutation (List.filter f l) (List.filter f l').
Proof.
  induction 1 as [| x l l' _ IH | x y l | l1 l2 l3 _ IH1 _ IH2]; simpl.
  - reflexivity.
  - destruct (f x); [apply perm_skip |]; exact IH.
  - destruct (f x), (f y); try reflexivity. apply perm_swap.
  - etransitivity; eassumption.
Qed.

Lemma filter_StronglySorted {A} (R : A -> A -> Prop) (f : A -> bool)
    (l : list A) :
  StronglySorted R l -> StronglySorted R (List.filter f l).
Proof.
  induction 1 as [|x l Hs IH Hall]; simpl; [constructor |].
  destruct (f x); [| exact IH].
  constructor; [exact IH |].
  apply Forall_forall. intros y Hy.
  apply list_elem_of_In, filter_In in Hy as [Hy _].
  rewrite Forall_forall in Hall. apply Hall, list_elem_of_In, Hy.
Qed.

Lemma map_snd_imap_pair {A} (l : list A) (i : nat) :
  List.map snd (imap (fun k x => (i + k, x)%nat) l) = l.
Proof.
  revert i. induction l as [|x l IH]; intros i; simpl; [reflexivity |].
  f_equal. rewrite <- (IH (S i)) at 2. f_equal. apply imap_ext.
  intros k y _. simpl. f_equal. lia.
Qed.

Lemma map_snd_filter {A B} (f : B -> bool) (l : list (A * B)) :
  List.map snd (List.filter (fun p => f (snd p)) l)
  = List.filter f (List.map snd l).
Proof.
  induction l as [|[a b] l IH]; simpl; [reflexivity |].
  destruct (f b); simpl; rewrite IH; reflexivity.
Qed.

Lemma StronglySorted_map_snd {A} (key : Article -> Z) (l : list (A * Article)) :
  StronglySorted (desc (fun p : A * Article => key (snd p))) l ->
  StronglySorted (desc key) (List.map snd l).
Proof.
  induction 1 as [|x l Hs IH Hall]; simpl; constructor; [exact IH |].
  apply Forall_forall. intros y Hy.
  apply list_elem_of_In, in_map_iff in Hy as (p & <- & Hp).
  rewrite Forall_forall in Hall. apply (Hall p), list_elem_of_In, Hp.
Qed.

Lemma inbox_sorted_lookup (inbox : list Article) (p : nat) (a : Article) :
  In (p, a) (inbox_sorted inbox) -> inbox !! p = Some a.
Proof.
  intros H. unfold inbox_sorted in H.
  apply (Permutation_in _ (sorted_desc_perm _ _)) in H.
  apply list_elem_of_In, elem_of_lookup_imap in H as (i & y & E & Hy).
  injection E as -> ->. exact Hy.
Qed.

Lemma filtered_lookup (label : str) (inbox : list Article) (p : nat)
    (a : Article) :
  In (p, a) (filtered_articles label inbox) -> inbox !! p = Some a.
Proof.
  unfold filtered_articles. case_bool_decide as Hl.
  - apply inbox_sorted_lookup.
  - intros H. apply filter_In in H as [H _]. apply inbox_sorted_lookup, H.
Qed.

(** What a tab of the inbox page lists: under the label of all articles,
    every article of the inbox; under a keyword, the articles collected for
    that keyword and no other; in both cases once each, the latest
    published first, and each listed article is the very object of the
    inbox at its position. *)
Theorem filtered_articles_tab (label : str) (inbox : list Article) :
  let shown := List.map snd (filtered_articles label inbox) in
  (label = ALL_LABEL -> Permutation shown inbox)
  /\ (label <> ALL_LABEL ->
      Permutation shown
        (List.filter (fun a => bool_decide (art_query_keyword a = label))
           inbox))
  /\ StronglySorted
       (fun x y => (art_published_at y <= art_published_at x)%Z) shown
  /\ (forall p a, In (p, a) (filtered_articles label inbox) ->
        inbox !! p = Some a).
Proof.
  cbv zeta.
  assert (Hperm : Permutation (List.map snd (inbox_sorted inbox)) inbox).
  { unfold inbox_sorted.
    rewrite (Permutation_map snd (sorted_desc_perm _ (imap pair inbox))).
    change (imap pair inbox) with (imap (fun k x => (0 + k, x)%nat) inbox).
    rewrite map_snd_imap_pair. reflexivity. }
  assert (Hsorted : StronglySorted (desc art_published_at)
                      (List.map snd (inbox_sorted inbox))).
  { apply StronglySorted_map_snd, sorted_desc_sorted. }
  repeat apply conj.
  - intros ->. unfold filtered_articles.
    rewrite bool_decide_eq_true_2 by reflexivity. exact Hperm.
  - intros Hne. unfold filtered_articles.
    rewrite bool_decide_eq_false_2 by exact Hne.
    pose proof (map_snd_filter
                  (fun a => bool_decide (art_query_keyword a = label))
                  (inbox_sorted inbox)) as E.
    cbv beta in E. rewrite E.
    apply filter_Permutation_bool, Hperm.
  - unfold filtered_articles. case_bool_decide as Hl; [exact Hsorted |].
    pose proof (map_snd_filter
                  (fun a => bool_decide (art_query_keyword a = label))
                  (inbox_sorted inbox)) as E.
    cbv beta in E. rewrite E.
    apply filter_StronglySorted, Hsorted.
  - apply filtered_lookup.
Qed.

Lemma insert_set_press_ids (l : list Article) (pos : nat) (a : Article)
    (p : str) :
  l !! pos = Some a ->
  List.map art_id (<[pos := set_press a p]> l) = List.map art_id l.
Proof.
  intros H. apply Forall2_same_but_press_ids.
  apply Forall2_same_but_press_insert, H.
Qed.

Section SavedRecords.
Variable L : Library.
Variable W : World.
Variable target_folder : str.
Variable rows : list EditorRow.
Variable selected_ids : list str.
Variable existing_ids : gset str.

Local Abbreviation step :=
  (save_article L W target_folder rows selected_ids existing_ids).

(** The records the loop appends: one for each position whose article is
    ticked and unsaved, in the order of the positions. *)
Lemma save_articles_fold_ids (ps : list nat) (s : Saving) :
  exists new,
    s_saved (fold_left step ps s) = s_saved s ++ new
    /\ List.map article_id new
       = List.filter (ticked_unsaved selected_ids existing_ids)
           (omap (fun p => (List.map art_id (s_inbox s)) !! p) ps)
    /\ Forall (fun r => folder r = target_folder) new.
Proof.
  revert s. induction ps as [|p ps IH]; intros s; simpl.
  { exists []. rewrite app_nil_r. repeat split. constructor. }
  change (List.map art_id (s_inbox s)) with (art_id <$> s_inbox s).
  rewrite list_lookup_fmap.
  destruct (s_inbox s !! p) as [article|] eqn:E; simpl.
  2: { assert (Hst : step s p = s)
         by (unfold save_article; rewrite E; reflexivity).
       rewrite Hst. apply IH. }
  destruct (ticked_unsaved selected_ids existing_ids (art_id article))
    eqn:Ht.
  2: { assert (Hst : step s p = s).
       { unfold save_article. rewrite E.
         unfold ticked_unsaved in Ht. rewrite Ht. reflexivity. }
       rewrite Hst. apply IH. }
  assert (Hst : exists final_press r,
             s_inbox (step s p)
             = <[p := set_press article final_press]> (s_inbox s)
             /\ s_saved (step s p) = s_saved s ++ [r]
             /\ article_id r = art_id article
             /\ folder r = target_folder).
  { unfold save_article. rewrite E.
    unfold ticked_unsaved in Ht. rewrite Ht. simpl.
    eexists _, _. repeat split. }
  destruct Hst as (final_press & r & Hinb & Hsv & Hid & Hfo).
  destruct (IH (step s p)) as (new & Hs & Hids & Hf).
  rewrite Hinb, (insert_set_press_ids _ _ _ _ E) in Hids.
  exists (r :: new). split; [| split].
  - rewrite Hs, Hsv, <- app_assoc. reflexivity.
  - simpl. rewrite Hids, Hid. reflexivity.
  - constructor; [exact Hfo | exact Hf].
Qed.

End SavedRecords.

Lemma omap_positions_ids (inbox : list Article) (l : list (nat * Article)) :
  (forall p a, In (p, a) l -> inbox !! p = Some a) ->
  omap (fun p => (List.map art_id inbox) !! p) (List.map fst l)
  = List.map (fun pa => art_id (snd pa)) l.
Proof.
  induction l as [|[p a] l IH]; intros H; simpl; [reflexivity |].
  change (List.map art_id inbox) with (art_id <$> inbox).
  rewrite list_lookup_fmap, (H p a) by (left; reflexivity). simpl.
  f_equal. apply IH. intros q b Hq. apply H. right. exact Hq.
Qed.

Section InboxPageFurther.
Variable L : Library.
Variable W : World.

(** What the save button saves: one record, in the chosen folder, for
    each listed article that is ticked and has no saved record yet, in the
    order of the table, and nothing else; an id is ticked when it is the id
    of a row whose box the user ticked.  With the chosen folder in the
    folder list, every saved article stays in a listed folder. *)
Theorem page_inbox_save_saves_ticked (label target_folder : str)
    (user : nat -> RowEdit) (st : State) :
  let st' := page_inbox_save L W label target_folder user st in
  let filtered := filtered_articles label (inbox_articles st) in
  let rows := current_editor L user filtered in
  let selected_ids := List.map row_id (List.filter row_selected rows) in
  let existing_ids : gset str :=
    list_to_set (List.map article_id (saved_articles st)) in
  (exists new,
      saved_articles st' = saved_articles st ++ new
      /\ List.map article_id new
         = List.filter (ticked_unsaved selected_ids existing_ids)
             (List.map (fun pa => art_id (snd pa)) filtered)
      /\ Forall (fun r => folder r = target_folder) new)
  /\ (forall i, In i selected_ids <->
        exists k pa, filtered !! k = Some pa
                     /\ ticked (user k) = true /\ art_id (snd pa) = i)
  /\ (folders_cover_saved st -> In target_folder (folders st) ->
      folders_cover_saved st')
  /\ folders st' = folders st.
Proof.
  cbv zeta.
  assert (Hnew : exists new,
    saved_articles (page_inbox_save L W label target_folder user st)
    = saved_articles st ++ new
    /\ List.map article_id new
       = List.filter
           (ticked_unsaved
              (List.map row_id
                 (List.filter row_selected
                    (current_editor L user
                       (filtered_articles label (inbox_articles st)))))
              (list_to_set (List.map article_id (saved_articles st))))
           (List.map (fun pa => art_id (snd pa))
              (filtered_articles label (inbox_articles st)))
    /\ Forall (fun r => folder r = target_folder) new).
  { rewrite page_inbox_save_fold. simpl.
    match goal with
    | |- context [fold_left (save_article _ _ _ ?rs ?sel ?ex) ?ps ?s0] =>
        destruct (save_articles_fold_ids L W target_folder rs sel ex ps s0)
          as (new & Hs & Hids & Hf)
    end.
    simpl in Hs, Hids.
    rewrite (omap_positions_ids _ _
               (filtered_lookup label (inbox_articles st))) in Hids.
    exists new. auto. }
  assert (Hfolders :
    folders (page_inbox_save L W label target_folder user st) = folders st).
  { rewrite page_inbox_save_fold. reflexivity. }
  repeat apply conj.
  - exact Hnew.
  - intros i. rewrite in_map_iff. split.
    + intros (r & <- & Hr). apply filter_In in Hr as [Hr Hsel].
      apply list_elem_of_In, elem_of_lookup_imap in Hr as (k & pa & -> & Hk).
      exists k, pa. auto.
    + intros (k & pa & Hk & Ht & <-).
      eexists. split; [| apply filter_In; split].
      2: { apply list_elem_of_In, elem_of_lookup_imap.
           exists k, pa. split; [reflexivity | exact Hk]. }
      * reflexivity.
      * exact Ht.
  - intros Hcover Htarget. unfold folders_cover_saved.
    destruct Hnew as (new & Hs & _ & Hf). rewrite Hs, Hfolders.
    intros s Hin. apply in_app_iff in Hin as [Hin | Hin].
    + apply Hcover, Hin.
    + rewrite List.Forall_forall in Hf. rewrite (Hf s Hin). exact Htarget.
  - exact Hfolders.
Qed.

End InboxPageFurther.

Lemma unique_by_id (l : list Article) (a a' : Article) :
  NoDup (List.map art_id l) -> In a l -> In a' l ->
  art_id a = art_id a' -> a = a'.
Proof.
  induction l as [|x l IH]; simpl; [contradiction |].
  intros Hnd Ha Ha' Hid. apply NoDup_cons in Hnd as [Hx Hnd].
  destruct Ha as [-> | Ha], Ha' as [-> | Ha'].
  - reflexivity.
  - exfalso. apply Hx. rewrite Hid. apply list_elem_of_In, in_map, Ha'.
  - exfalso. apply Hx. rewrite <- Hid. apply list_elem_of_In, in_map, Ha.
  - apply IH; assumption.
Qed.

Lemma set_press_same (a : Article) : set_press a (art_press a) = a.
Proof. destruct a; reflexivity. Qed.

Section InboxPress.
Variable L : Library.
Variable W : World.

Lemma save_article_press_normalised (target_folder : str)
    (rows : list EditorRow) (selected_ids : list str)
    (existing_ids : gset str) (s : Saving) (pos : nat) :
  Forall (press_normalised L) (s_inbox s) ->
  Forall (press_normalised L)
    (s_inbox (save_article L W target_folder rows selected_ids existing_ids
                s pos)).
Proof.
  intros H. unfold save_article.
  destruct (s_inbox s !! pos) as [article|]; [| exact H].
  destruct (_ && _); [| exact H]. simpl.
  apply Forall_insert; [exact H |].
  unfold press_normalised. simpl.
  destruct (nonempty _); eexists; reflexivity.
Qed.

(** The press of every article of the inbox is at all times a result of
    the normaliser for the link of the article: the collection, the
    scheduled tick, the purge and the save button, with or without a typed
    press, keep it so. *)
Theorem inbox_press_stays_normalised (st : State) :
  Forall (press_normalised L) (inbox_articles st) ->
  Forall (press_normalised L)
    (inbox_articles (fst (collect_news_from_naver L W st)))
  /\ (forall now,
        Forall (press_normalised L)
          (inbox_articles (run_hourly_auto_collect L W now st)))
  /\ Forall (press_normalised L) (inbox_articles (manual_collect L W st))
  /\ (forall now days,
        Forall (press_normalised L)
          (inbox_articles (purge_old_inbox now days st)))
  /\ (forall label target_folder user,
        Forall (press_normalised L)
          (inbox_articles (page_inbox_save L W label target_folder user st))).
Proof.
  intros H.
  assert (Hc : Forall (press_normalised L)
                 (inbox_articles (fst (collect_news_from_naver L W st)))).
  { destruct (collect_inbox L W st) as [-> | [kws ->]]; [exact H |].
    match goal with
    | |- context [collect_keywords L W 0 ?kws ?c0] =>
        destruct (collect_keywords_extends L W kws kws 0 c0 (fun kw Hk => Hk))
          as (new & Hi & _ & Hf & _)
    end.
    rewrite Hi. simpl. apply Forall_app. split; [| exact H].
    eapply Forall_impl; [exact Hf |]. intros a (_ & _ & _ & Ha). exact Ha. }
  repeat apply conj.
  - exact Hc.
  - intros now. destruct (run_hourly_inbox L W now st) as [-> | ->];
      assumption.
  - unfold manual_collect.
    destruct (collect_news_from_naver L W st) as [st1 r]. exact Hc.
  - intros now days. unfold purge_old_inbox. simpl.
    apply Forall_forall. intros a Ha.
    apply list_elem_of_In, filter_In in Ha as [Ha _].
    rewrite Forall_forall in H. apply H, list_elem_of_In, Ha.
  - intros label target_folder user. rewrite page_inbox_save_fold. simpl.
    match goal with
    | |- context [fold_left ?f ?ps ?s0] =>
        assert (Hfold : forall ps' s,
                   Forall (press_normalised L) (s_inbox s) ->
                   Forall (press_normalised L) (s_inbox (fold_left f ps' s)))
    end.
    { induction ps' as [|p ps' IH]; intros s Hs; simpl; [exact Hs |].
      apply IH, save_article_press_normalised, Hs. }
    apply Hfold. exact H.
Qed.

(** Saving from the inbox without typing a press leaves the inbox as it
    is, when the ids of its articles are distinct, their presses are
    normalised, and the tokens guessed from their links have no white space
    at their ends. *)
Theorem page_inbox_save_without_edit (label target_folder : str)
    (user : nat -> RowEdit) (st : State) :
  NoDup (List.map art_id (inbox_articles st)) ->
  (forall a, In a (inbox_articles st) ->
     press_normalised L a
     /\ strip (guess_press_from_link L (art_link a))
        = guess_press_from_link L (art_link a)) ->
  (forall k, typed_press (user k) = None) ->
  inbox_articles (page_inbox_save L W label target_folder user st)
  = inbox_articles st.
Proof.
  intros Hnd Hpress Huser.
  assert (Hnorm : forall a, In a (inbox_articles st) ->
            normalize_press_name L (art_press a) (art_link a) = art_press a
            /\ strip (art_press a) = art_press a).
  { intros a Ha. destruct (Hpress a Ha) as [[raw Hraw] Hhost].
    rewrite Hraw. split; [apply normalize_twice | apply normalize_trimmed];
      exact Hhost. }
  rewrite page_inbox_save_fold. simpl.
  set (filtered := filtered_articles label (inbox_articles st)).
  set (rows := current_editor L user filtered).
  assert (Hrow : forall article r,
            In article (inbox_articles st) ->
            edited_row rows (art_id article) = Some r ->
            row_press r = art_press article).
  { intros article r Hart Hfind. unfold edited_row in Hfind.
    apply find_some in Hfind as [Hr Hid].
    apply bool_decide_eq_true in Hid.
    apply in_rev, list_elem_of_In in Hr. unfold rows, current_editor in Hr.
    apply elem_of_lookup_imap in Hr as (k & [p a'] & -> & Hk).
    simpl in *. rewrite Huser. simpl.
    assert (Ha' : In a' (inbox_articles st)).
    { apply list_elem_of_lookup_2, list_elem_of_In in Hk.
      apply (filtered_lookup label) in Hk.
      apply list_elem_of_lookup_2, list_elem_of_In in Hk. exact Hk. }
    rewrite (unique_by_id _ _ _ Hnd Ha' Hart Hid).
    apply Hnorm, Hart. }
  match goal with
  | |- context [fold_left ?f ?ps ?s0] =>
      assert (Hfold : forall ps' s,
                 s_inbox s = inbox_articles st ->
                 s_inbox (fold_left f ps' s) = inbox_articles st)
  end.
  { induction ps' as [|p ps' IH]; intros s Hs; simpl; [exact Hs |].
    apply IH. unfold save_article.
    destruct (s_inbox s !! p) as [article|] eqn:E; [| exact Hs].
    destruct (_ && _); [| exact Hs]. simpl.
    assert (Hart : In article (inbox_articles st)).
    { rewrite <- Hs. pose proof E as E2.
      apply list_elem_of_lookup_2, list_elem_of_In in E2. exact E2. }
    destruct (Hnorm article Hart) as [Hn Ht].
    assert (Hcell :
      strip (match edited_row rows (art_id article) with
             | Some r => row_press r
             | None => art_press article
             end) = art_press article).
    { destruct (edited_row rows (art_id article)) as [r|] eqn:Er.
      - rewrite (Hrow article r Hart Er). exact Ht.
      - exact Ht. }
    rewrite Hcell, Hn.
    destruct (nonempty (art_press article));
      rewrite set_press_same, (list_insert_id _ _ _ E); exact Hs. }
  apply Hfold. reflexivity.
Qed.

End InboxPress.

(** ** Dashboard *)

Lemma StronglySorted_take_drop {A} (R : A -> A -> Prop) (n : nat)
    (l : list A) :
  StronglySorted R l ->
  StronglySorted R (take n l)
  /\ forall x y, In x (take n l) -> In y (drop n l) -> R x y.
Proof.
  intros H. revert n. induction H as [|a l Hs IH Hall]; intros n.
  - destruct n; simpl; split; try constructor; intros x y [].
  - destruct n as [|n]; simpl.
    + split; [constructor | intros x y []].
    + destruct (IH n) as [IH1 IH2]. split.
      * constructor; [exact IH1 |].
        apply Forall_forall. intros y Hy. rewrite Forall_forall in Hall.
        apply Hall. apply (subseteq_take n l), Hy.
      * intros x y [<- | Hx] Hy.
        -- rewrite Forall_forall in Hall.
           apply Hall. apply (subseteq_drop n l), list_elem_of_In, Hy.
        -- apply IH2; assumption.
Qed.

(** The dashboard lists at most five articles, the latest published of
    the inbox first: no article it leaves out was published later than one
    it lists.  With fresh alerts it lists the first five alerts, and no
    alert it leaves out is later than one it lists. *)
Theorem dashboard_shows_latest (st : State) :
  let shown := dashboard_recent st in
  length shown = Nat.min 5 (length (inbox_articles st))
  /\ StronglySorted
       (fun x y => (art_published_at y <= art_published_at x)%Z) shown
  /\ (exists rest,
        Permutation (inbox_articles st) (shown ++ rest)
        /\ forall x y, In x shown -> In y rest ->
             (art_published_at y <= art_published_at x)%Z)
  /\ (alerts_fresh st ->
      exists rest,
        alerts st = dashboard_alerts st ++ rest
        /\ forall x y, In x (dashboard_alerts st) -> In y rest ->
             (alert_time y <= alert_time x)%Z).
Proof.
  cbv zeta. unfold dashboard_recent, dashboard_alerts.
  pose proof (sorted_desc_sorted art_published_at (inbox_articles st)) as Hs.
  destruct (StronglySorted_take_drop _ 5 _ Hs) as [H1 H2].
  repeat apply conj.
  - rewrite length_take, (Permutation_length (sorted_desc_perm _ _)).
    reflexivity.
  - exact H1.
  - exists (drop 5 (sorted_desc art_published_at (inbox_articles st))).
    split; [| exact H2].
    rewrite take_drop. symmetry. apply sorted_desc_perm.
  - intros Hfresh. exists (drop 5 (alerts st)).
    split; [symmetry; apply take_drop |].
    unfold alerts_fresh in Hfresh. rewrite Hfresh.
    apply (StronglySorted_take_drop (desc alert_time)).
    apply sorted_desc_sorted.
Qed.

(** ** Correction requests *)

Lemma index_of_spec (options : list str) (status : str) (n : nat) :
  index_of options status = Some n ->
  (n < length options)%nat /\ nth n options [] = status.
Proof.
  revert n. induction options as [|o rest IH]; intros n; simpl;
    [discriminate |].
  case_bool_decide as Ho.
  - intros [= <-]. split; [lia | exact Ho].
  - destruct (index_of rest status) as [m|]; [| discriminate].
    intros [= <-]. destruct (IH m eq_refl). split; [lia | assumption].
Qed.

Lemma index_of_In (options : list str) (status : str) :
  In status options -> exists n, index_of options status = Some n.
Proof.
  induction options as [|o rest IH]; simpl; [contradiction |].
  intros H. case_bool_decide as Ho; [eauto |].
  destruct H as [H | H]; [contradiction |].
  destruct (IH H) as [n ->]. eauto.
Qed.

Lemma index_of_None (options : list str) (status : str) :
  ~ In status options -> index_of options status = None.
Proof.
  induction options as [|o rest IH]; simpl; [reflexivity |].
  intros H. case_bool_decide as Ho; [exfalso; auto |].
  rewrite IH; [reflexivity | auto].
Qed.

Lemma same_but_status_memo_refl (item : CorrectionItem) :
  same_but_status_memo item item.
Proof. destruct item; reflexivity. Qed.

Lemma same_but_status_memo_set (item item' : CorrectionItem)
    (status memo : str) :
  same_but_status_memo item item' ->
  same_but_status_memo item (set_status_memo item' status memo).
Proof. unfold same_but_status_memo. intros ->. reflexivity. Qed.

Lemma chosen_status_valid (edit : EntryEdit) (initial : nat) :
  (initial < length STATUS_OPTIONS)%nat ->
  In (nth match picked_option edit with
          | Some i => if (i <? length STATUS_OPTIONS)%nat then i else initial
          | None => initial
          end STATUS_OPTIONS [])
     STATUS_OPTIONS.
Proof.
  intros Hlt. apply nth_In.
  destruct (picked_option edit) as [i|]; [| exact Hlt].
  destruct (i <? length STATUS_OPTIONS)%nat eqn:Ei; [| exact Hlt].
  apply Nat.ltb_lt, Ei.
Qed.

Section Tracking.
Variable user : nat -> str -> EntryEdit.

Lemma track_entry_valid (items0 items : list CorrectionItem) (idx pos : nat) :
  statuses_valid items ->
  Forall2 same_but_status_memo items0 items ->
  exists items',
    track_entry user items idx pos = (items', true)
    /\ statuses_valid items'
    /\ Forall2 same_but_status_memo items0 items'
    /\ (user idx = (fun _ => untouched) -> items' = items).
Proof.
  intros Hv Hsame. unfold track_entry.
  destruct (items !! pos) as [item|] eqn:E; [| eauto 6].
  assert (Hitem : In (corr_status item) STATUS_OPTIONS).
  { unfold statuses_valid in Hv. rewrite Forall_forall in Hv.
    eapply Hv, list_elem_of_lookup_2, E. }
  destruct (index_of_In _ _ Hitem) as [initial Hi]. rewrite Hi.
  destruct (index_of_spec _ _ _ Hi) as [Hlt Hnth].
  eexists. split; [reflexivity |]. repeat split.
  - apply Forall_insert; [exact Hv |].
    exact (chosen_status_valid (user idx (corr_id item)) initial Hlt).
  - destruct (Forall2_lookup_r _ _ _ _ _ Hsame E) as (item0 & E0 & H0).
    rewrite <- (list_insert_id items0 pos item0 E0).
    apply Forall2_insert; [exact Hsame |].
    apply same_but_status_memo_set, H0.
  - intros ->. cbn [picked_option typed_memo untouched default].
    rewrite Hnth.
    replace (set_status_memo item (corr_status item) (corr_memo item))
      with item by (destruct item; reflexivity).
    apply list_insert_id, E.
Qed.

Lemma track_entries_valid (positions : list nat) (idx : nat)
    (items0 items : list CorrectionItem) :
  statuses_valid items ->
  Forall2 same_but_status_memo items0 items ->
  exists items',
    track_entries user idx positions items = (items', true)
    /\ statuses_valid items'
    /\ Forall2 same_but_status_memo items0 items'
    /\ ((forall k, user k = (fun _ => untouched)) -> items' = items).
Proof.
  revert idx items. induction positions as [|pos rest IH];
    intros idx items Hv Hsame; simpl.
  - eauto 6.
  - destruct (track_entry_valid items0 items idx pos Hv Hsame)
      as (items1 & -> & Hv1 & Hs1 & Hu1).
    destruct (IH (S idx) items1 Hv1 Hs1) as (items' & -> & Hv' & Hs' & Hu').
    exists items'. repeat split; try assumption.
    intros Hu. rewrite (Hu' Hu). apply Hu1, Hu.
Qed.

(** With every status among the options of the radio, the tracking page
    never raises; it keeps the entries in number and order, every status
    among the options, and every field of every entry other than the status
    and the memo; and it changes nothing when the user touches no widget.
    Filing a request appends, after the entries there are, one entry with
    the first status of the radio, the id drawn, the memo typed and the
    fields of the chosen saved article. *)
Theorem correction_tracking_keeps_entries (items : list CorrectionItem)
    (uid memo : str) (chosen : SavedArticle) :
  statuses_valid items ->
  (exists items',
      page_correction_tracking user items = (items', true)
      /\ statuses_valid items'
      /\ length items' = length items
      /\ (forall pos item item',
            items !! pos = Some item -> items' !! pos = Some item' ->
            corr_id item' = corr_id item
            /\ corr_article_id item' = corr_article_id item
            /\ corr_published_at item' = corr_published_at item
            /\ corr_press item' = corr_press item
            /\ corr_title item' = corr_title item
            /\ corr_link item' = corr_link item)
      /\ ((forall k, user k = (fun _ => untouched)) -> items' = items))
  /\ statuses_valid (add_correction_item uid chosen memo items)
  /\ length (add_correction_item uid chosen memo items) = S (length items)
  /\ (exists entry,
        add_correction_item uid chosen memo items = items ++ [entry]
        /\ corr_status entry = nth 0 STATUS_OPTIONS []
        /\ corr_id entry = uid
        /\ corr_memo entry = memo
        /\ corr_article_id entry = article_id chosen
        /\ corr_published_at entry = saved_published_at chosen
        /\ corr_press entry = saved_press chosen
        /\ corr_title entry = saved_title chosen
        /\ corr_link entry = saved_link chosen).
Proof.
  intros Hv. split; [| split; [| split]].
  - assert (Hrefl : Forall2 same_but_status_memo items items).
    { clear. induction items; constructor;
        auto using same_but_status_memo_refl. }
    assert (H : exists items',
      page_correction_tracking user items = (items', true)
      /\ statuses_valid items'
      /\ Forall2 same_but_status_memo items items'
      /\ ((forall k, user k = (fun _ => untouched)) -> items' = items)).
    { unfold page_correction_tracking.
      destruct items as [|i0 rest] eqn:E; [eauto 6 |]. rewrite <- E in *.
      apply track_entries_valid; assumption. }
    destruct H as (items' & Hp & Hv' & Hs & Hu).
    exists items'. split; [exact Hp |]. split; [exact Hv' |].
    split; [symmetry; eapply Forall2_length, Hs |]. split; [| exact Hu].
    intros q it it' Hi Hi'.
    assert (Hq : same_but_status_memo it it')
      by (eapply Forall2_lookup_lr; eassumption).
    unfold same_but_status_memo in Hq. rewrite Hq. repeat split.
  - unfold add_correction_item, statuses_valid. apply Forall_app.
    split; [exact Hv |]. constructor; [| constructor].
    simpl. left. reflexivity.
  - unfold add_correction_item. rewrite length_app. simpl. lia.
  - unfold add_correction_item. eexists. split; [reflexivity |].
    repeat split.
Qed.

(** An entry whose status is not among the options of the radio makes the
    tracking page raise. *)
Theorem correction_tracking_raises (items : list CorrectionItem) (pos : nat)
    (item : CorrectionItem) :
  items !! pos = Some item ->
  ~ In (corr_status item) STATUS_OPTIONS ->
  snd (page_correction_tracking user items) = false.
Proof.
  intros Hat Hbad.
  assert (Hloop : forall positions idx cur,
    In pos positions ->
    (forall q it, cur !! q = Some it ->
       ~ In (corr_status it) STATUS_OPTIONS ->
       items !! q = Some it) ->
    cur !! pos = Some item ->
    snd (track_entries user idx positions cur) = false).
  { induction positions as [|q rest IH]; intros idx cur Hin Hcur Hpos;
      [destruct Hin |].
    cbn [track_entries]. unfold track_entry.
    destruct (cur !! q) as [it|] eqn:Eq; cbv beta iota.
    - destruct (index_of STATUS_OPTIONS (corr_status it)) as [initial|] eqn:Ei;
        cbv beta iota zeta; [| reflexivity].
      destruct (index_of_spec _ _ _ Ei) as [Hlt Hnth].
      assert (Hq : q <> pos).
      { intros ->. rewrite Hpos in Eq. injection Eq as <-.
        rewrite (index_of_None _ _ Hbad) in Ei. discriminate. }
      destruct Hin as [-> | Hin]; [contradiction |].
      apply IH; [exact Hin | |].
      + intros q' it' Hq' Hb.
        destruct (decide (q = q')) as [<- | Hne].
        * rewrite list_lookup_insert_eq in Hq'
            by (apply lookup_lt_is_Some; eauto).
          injection Hq' as <-. exfalso. apply Hb.
          exact (chosen_status_valid (user idx (corr_id it)) initial Hlt).
        * rewrite list_lookup_insert_ne in Hq' by exact Hne.
          apply Hcur; assumption.
      + rewrite list_lookup_insert_ne by exact Hq. exact Hpos.
    - destruct Hin as [-> | Hin]; [rewrite Hpos in Eq; discriminate |].
      apply IH; assumption. }
  unfold page_correction_tracking.
  destruct items as [|i0 rest] eqn:E; [discriminate |]. rewrite <- E in *.
  apply Hloop; [| auto | exact Hat].
  assert (Hp : Permutation
            (List.map fst
               (sorted_desc (fun p => corr_published_at (snd p))
                  (imap pair items)))
            (seq 0 (length items))).
  { rewrite (Permutation_map fst (sorted_desc_perm _ (imap pair items))).
    change (imap pair items) with (imap (fun k x => (0 + k, x)%nat) items).
    rewrite map_fst_imap_pair. reflexivity. }
  apply (Permutation_in _ (Permutation_sym Hp)), in_seq.
  apply lookup_lt_Some in Hat. lia.
Qed.

End Tracking.

(** ** The further properties at work on concrete states *)

Lemma normalize_press_name_idempotent_witness :
  strip (guess_press_from_link demo_library (py "https://www.yna.co.kr/1"))
  = guess_press_from_link demo_library (py "https://www.yna.co.kr/1")
  /\ normalize_press_name demo_library
       (normalize_press_name demo_library (py " Daily Planet ")
          (py "https://www.yna.co.kr/1"))
       (py "https://www.yna.co.kr/1")
     = normalize_press_name demo_library (py " Daily Planet ")
         (py "https://www.yna.co.kr/1").
Proof.
  assert (H : strip (guess_press_from_link demo_library
                       (py "https://www.yna.co.kr/1"))
              = guess_press_from_link demo_library
                  (py "https://www.yna.co.kr/1"))
    by (vm_compute; reflexivity).
  split; [exact H |].
  exact (proj1 (normalize_press_name_idempotent demo_library
                  (py " Daily Planet ") (py "https://www.yna.co.kr/1") H)).
Defined.

Lemma collect_first_request_fails_witness :
  naver_api_ready (demo_world [None]) = true
  /\ collect_news_from_naver demo_library (demo_world [None]) demo_st
     = (demo_st, (0%nat, error)).
Proof.
  assert (H1 : naver_api_ready (demo_world [None]) = true)
    by (vm_compute; reflexivity).
  split; [exact H1 |].
  refine (collect_first_request_fails demo_library (demo_world [None])
            demo_st H1 _).
  vm_compute. reflexivity.
Defined.

Lemma tick_within_the_hour_is_idle_witness :
  (timedelta_hours 1 + 5 - timedelta_hours 1 < timedelta_hours 1)%Z
  /\ run_hourly_auto_collect demo_library (demo_world [None])
       (timedelta_hours 1 + 5)
       (run_hourly_auto_collect demo_library demo_world_repeating
          (timedelta_hours 1) demo_st)
     = run_hourly_auto_collect demo_library demo_world_repeating
         (timedelta_hours 1) demo_st.
Proof.
  assert (H : (timedelta_hours 1 + 5 - timedelta_hours 1
               < timedelta_hours 1)%Z) by (vm_compute; reflexivity).
  split; [exact H |].
  refine (tick_within_the_hour_is_idle demo_library demo_world_repeating
            (demo_world [None]) (timedelta_hours 1) (timedelta_hours 1 + 5)
            demo_st _ _ _ H).
  - reflexivity.
  - vm_compute. reflexivity.
  - vm_compute. discriminate.
Defined.

Lemma purge_old_inbox_absorbs_witness :
  (timedelta_days 7 <= timedelta_days 8)%Z
  /\ purge_old_inbox (timedelta_days 8) 7
       (purge_old_inbox (timedelta_days 7) 7 demo_st)
     = purge_old_inbox (timedelta_days 8) 7 demo_st.
Proof.
  assert (H : (timedelta_days 7 <= timedelta_days 8)%Z)
    by (vm_compute; discriminate).
  split; [exact H |].
  exact (purge_old_inbox_absorbs (timedelta_days 7) (timedelta_days 8) 7
           demo_st H).
Defined.

Lemma demo_inbox_press_normalised :
  forall a, In a (inbox_articles demo_st_normalised) ->
    press_normalised demo_library a
    /\ strip (guess_press_from_link demo_library (art_link a))
       = guess_press_from_link demo_library (art_link a).
Proof.
  intros a [<- | [<- | []]]; (split; [| vm_compute; reflexivity]).
  - exists (art_press demo_a0). vm_compute. reflexivity.
  - exists (art_press demo_a2). vm_compute. reflexivity.
Qed.

Lemma inbox_press_stays_normalised_witness :
  Forall (press_normalised demo_library) (inbox_articles demo_st_normalised)
  /\ Forall (press_normalised demo_library)
       (inbox_articles
          (page_inbox_save demo_library (demo_world []) ALL_LABEL
             (py "보도자료") (tick_all_typing " Yonhap ") demo_st_normalised)).
Proof.
  assert (H : Forall (press_normalised demo_library)
                (inbox_articles demo_st_normalised)).
  { apply Forall_forall. intros a Ha.
    apply demo_inbox_press_normalised, list_elem_of_In, Ha. }
  split; [exact H |].
  exact (proj2 (proj2 (proj2 (proj2
    (inbox_press_stays_normalised demo_library (demo_world [])
       demo_st_normalised H)))) ALL_LABEL (py "보도자료")
    (tick_all_typing " Yonhap ")).
Defined.

Lemma page_inbox_save_without_edit_witness :
  NoDup (List.map art_id (inbox_articles demo_st_normalised))
  /\ inbox_articles
       (page_inbox_save demo_library (demo_world []) ALL_LABEL (py "보도자료")
          tick_all demo_st_normalised)
     = inbox_articles demo_st_normalised
  /\ length (saved_articles
       (page_inbox_save demo_library (demo_world []) ALL_LABEL (py "보도자료")
          tick_all demo_st_normalised)) = 3%nat.
Proof.
  assert (H : NoDup (List.map art_id (inbox_articles demo_st_normalised))).
  { apply (bool_decide_unpack _). vm_compute. exact I. }
  split; [exact H |]. split.
  - exact (page_inbox_save_without_edit demo_library (demo_world [])
             ALL_LABEL (py "보도자료") tick_all demo_st_normalised H
             demo_inbox_press_normalised (fun k => eq_refl)).
  - vm_compute. reflexivity.
Defined.

Lemma demo_st_covered : folders_cover_saved demo_st.
Proof.
  intros s [<- | [<- | []]]; vm_compute; auto.
Qed.

Lemma delete_folders_keeps_cover_witness :
  folders_cover_saved demo_st
  /\ folders_cover_saved (delete_folders [py "보도자료"] false demo_st)
  /\ folders_cover_saved (delete_folders [py "보도자료"] true demo_st).
Proof.
  split; [exact demo_st_covered |]. split.
  - refine (delete_folders_keeps_cover [py "보도자료"] false demo_st
              demo_st_covered (or_intror _)).
    vm_compute. intros [H | []]. discriminate.
  - exact (delete_folders_keeps_cover [py "보도자료"] true demo_st
             demo_st_covered (or_introl eq_refl)).
Defined.

Lemma delete_fallback_folder_dangles_witness :
  In (set_folder (demo_saved "s0" "a0" "미분류") FALLBACK_FOLDER)
    (saved_articles (delete_folders [py "미분류"] false demo_st_fallback))
  /\ ~ In FALLBACK_FOLDER
         (folders (delete_folders [py "미분류"] false demo_st_fallback))
  /\ folders (delete_folders [py "미분류"] false demo_st_fallback)
     = [py "보도자료"].
Proof.
  assert (H : In (set_folder (demo_saved "s0" "a0" "미분류") FALLBACK_FOLDER)
      (saved_articles (delete_folders [py "미분류"] false demo_st_fallback))
    /\ ~ In FALLBACK_FOLDER
           (folders (delete_folders [py "미분류"] false demo_st_fallback))).
  { refine (delete_fallback_folder_dangles [py "미분류"] demo_st_fallback
              (demo_saved "s0" "a0" "미분류") (py "보도자료") _ _ _ _ _).
    - left. reflexivity.
    - left. reflexivity.
    - left. reflexivity.
    - right. left. reflexivity.
    - vm_compute. intros [E | []]. discriminate. }
  split; [apply H |]. split; [apply H |]. vm_compute. reflexivity.
Defined.

Lemma demo_corrections_valid : statuses_valid demo_corrections.
Proof.
  unfold statuses_valid, demo_corrections.
  constructor; [vm_compute; auto |].
  constructor; [vm_compute; auto | constructor].
Qed.

Lemma correction_tracking_keeps_entries_witness :
  statuses_valid demo_corrections
  /\ snd (page_correction_tracking pick_third demo_corrections) = true
  /\ List.map corr_status
       (fst (page_correction_tracking pick_third demo_corrections))
     = [py "확인불가"; py "확인불가"]
  /\ List.map corr_status
       (add_correction_item (py "c2") (demo_saved "s0" "a0" "보도자료")
          (py "memo") demo_corrections)
     = [py "요청됨"; py "수정완료"; py "요청됨"]
  /\ statuses_valid
       (add_correction_item (py "c2") (demo_saved "s0" "a0" "보도자료")
          (py "memo") demo_corrections).
Proof.
  split; [exact demo_corrections_valid |].
  split; [vm_compute; reflexivity |].
  split; [vm_compute; reflexivity |].
  split; [vm_compute; reflexivity |].
  exact (proj1 (proj2
    (correction_tracking_keeps_entries pick_third demo_corrections
       (py "c2") (py "memo") (demo_saved "s0" "a0" "보도자료")
       demo_corrections_valid))).
Defined.

Lemma correction_tracking_raises_witness :
  ~ In (py "보류") STATUS_OPTIONS
  /\ snd (page_correction_tracking pick_third
            [demo_correction "c0" "요청됨" 10; demo_correction "c1" "보류" 20])
     = false
  /\ List.map corr_status
       (fst (page_correction_tracking pick_third
               [demo_correction "c0" "요청됨" 20;
                demo_correction "c1" "보류" 10]))
     = [py "확인불가"; py "보류"].
Proof.
  assert (H : ~ In (py "보류") STATUS_OPTIONS).
  { vm_compute. intros [E | [E | [E | []]]]; discriminate. }
  split; [exact H |]. split.
  - exact (correction_tracking_raises pick_third
             [demo_correction "c0" "요청됨" 10; demo_correction "c1" "보류" 20]
             1%nat (demo_correction "c1" "보류" 20) eq_refl H).
  - vm_compute. reflexivity.
Defined.

Lemma alerts_stay_fresh_witness :
  alerts_fresh (refresh_alerts demo_st)
  /\ alerts_fresh
       (page_inbox_save demo_library (demo_world []) ALL_LABEL (py "보도자료")
          (tick_all_typing "조선일보") (refresh_alerts demo_st)).
Proof.
  assert (H : alerts_fresh (refresh_alerts demo_st)) by reflexivity.
  split; [exact H |].
  exact (proj2 (proj2 (proj2 (proj2
    (alerts_stay_fresh demo_library (demo_world []) (refresh_alerts demo_st)))))
    ALL_LABEL (py "보도자료") (tick_all_typing "조선일보") H).
Defined.

Lemma keywords_stay_clean_witness :
  keywords (add_keyword (py " C ") demo_st) = [py "A"; py "B"; py "C"]
  /\ (In (py "C") (keywords (add_keyword (py " C ") demo_st)))
  /\ keywords (add_keyword (py " A ") demo_st) = keywords demo_st.
Proof.
  split; [vm_compute; reflexivity |]. split; [| vm_compute; reflexivity].
  refine (proj2 (proj1 (proj2
    (keywords_stay_clean (py " C ") (fun _ => false) demo_st)) (py "C")) _).
  right. split; [vm_compute; reflexivity | vm_compute; discriminate].
Defined.

Lemma folders_stay_listed_witness :
  folders demo_st <> []
  /\ folders (delete_folders (folders demo_st) true demo_st)
     = [FALLBACK_FOLDER]
  /\ folders (delete_folders (folders demo_st) true demo_st) <> [].
Proof.
  assert (H : folders demo_st <> []) by (vm_compute; discriminate).
  split; [exact H |]. split; [vm_compute; reflexivity |].
  exact (proj2 (proj1
    (folders_stay_listed [] (folders demo_st) true demo_st) H)).
Defined.

(** ** A run that ends on a failed request *)

Section CollectError.
Variable L : Library.
Variable W : World.

(** When the loop over the keywords is left on a failed request, the
    keywords before it were all served, and the variables are what the
    loop over those keywords alone gives. *)
Lemma collect_keywords_failed (kws : list str) (k : nat) (c : Collect) :
  snd (collect_keywords L W k kws c) = false ->
  exists served keyword rest,
    kws = served ++ keyword :: rest
    /\ fetch_items W (k + length served) keyword = None
    /\ snd (collect_keywords L W k served c) = true
    /\ fst (collect_keywords L W k kws c)
       = fst (collect_keywords L W k served c).
Proof.
  revert k c. induction kws as [|keyword rest IH]; intros k c; simpl;
    [discriminate |].
  destruct (fetch_items W k keyword) as [items|] eqn:E.
  - intros H. destruct (IH _ _ H) as (served & kw & rest' & -> & Hf & Hs & He).
    exists (keyword :: served), kw, rest'. simpl. rewrite E.
    repeat split; try assumption.
    rewrite <- Hf. f_equal. lia.
  - intros _. exists [], keyword, rest. simpl. rewrite Nat.add_0_r.
    repeat split. exact E.
Qed.

(** C1, as the code has it: a run that returns [error] reports the
    count 0, and removes or changes nothing of what the inbox held; but the
    articles of the keywords served before the failed request stay
    committed: the inbox after the run is what the run over those keywords
    alone gives, that is their articles in front of the inbox before the
    run.  The inbox, and the whole state, is as before the run when the
    failed request is the one for the first keyword. *)
Theorem collect_error_keeps_served_keywords (st : State) :
  snd (snd (collect_news_from_naver L W st)) = error ->
  let result := collect_news_from_naver L W st in
  let kws :=
    match keywords st with [] => [py "삼성화재"] | _ => keywords st end in
  let c0 :=
    {| c_inbox := inbox_articles st;
       c_existing_links := list_to_set (List.map art_link (inbox_articles st));
       c_added := 0 |} in
  fst (snd result) = 0%nat
  /\ (exists served keyword rest,
        kws = served ++ keyword :: rest
        /\ fetch_items W (length served) keyword = None
        /\ snd (collect_keywords L W 0 served c0) = true
        /\ inbox_articles (fst result)
           = c_inbox (fst (collect_keywords L W 0 served c0))
        /\ (served = [] -> fst result = st))
  /\ (exists new,
        inbox_articles (fst result) = new ++ inbox_articles st
        /\ Forall (fun a => art_link a <> []
                            /\ ~ In (art_link a)
                                   (List.map art_link (inbox_articles st))
                            /\ In (art_query_keyword a) kws) new)
  /\ keywords (fst result) = keywords st
  /\ folders (fst result) = folders st
  /\ saved_articles (fst result) = saved_articles st
  /\ alerts (fst result) = alerts st
  /\ auto_collect_enabled (fst result) = auto_collect_enabled st
  /\ last_auto_collect_at (fst result) = last_auto_collect_at st.
Proof.
  intros Herr. cbv zeta.
  destruct (naver_api_ready W) eqn:Hready.
  2: { unfold collect_news_from_naver in Herr. rewrite Hready in Herr.
       discriminate. }
  pose proof (collect_frame L W st) as Hframe.
  rewrite (collect_ready L W st Hready) in *. cbv zeta in *.
  set (kws := match keywords st with
              | [] => [py "삼성화재"]
              | _ => keywords st
              end) in *.
  set (c0 := {| c_inbox := inbox_articles st;
                c_existing_links :=
                  list_to_set (List.map art_link (inbox_articles st));
                c_added := 0 |}) in *.
  pose proof (collect_keywords_extends L W kws kws 0 c0 (fun kw H => H))
    as (new & Hi & _ & Hf & _).
  destruct (snd (collect_keywords L W 0 kws c0)) eqn:Hok;
    [simpl in Herr; discriminate |].
  destruct (collect_keywords_failed kws 0 c0 Hok)
    as (served & keyword & rest & Hk & Hfail & Hs & He).
  cbn [fst snd inbox_articles set_inbox_articles] in *.
  split; [reflexivity |]. split; [| split; [| exact Hframe]].
  - exists served, keyword, rest.
    split; [exact Hk |]. split; [exact Hfail |]. split; [exact Hs |].
    split; [rewrite He; reflexivity |].
    intros ->. rewrite He. simpl. apply set_inbox_same.
  - exists new. split; [exact Hi |].
    eapply Forall_impl; [exact Hf |].
    intros a (H1 & H2 & H3 & _). repeat split; [exact H1 | | exact H3].
    intros Hin. apply H2. unfold c0. simpl.
    apply elem_of_list_to_set, list_elem_of_In, Hin.
Qed.

End CollectError.

Lemma collect_error_keeps_served_keywords_witness :
  snd (snd (collect_news_from_naver demo_library demo_world_failing
              (demo_state [] []))) = error
  /\ fst (snd (collect_news_from_naver demo_library demo_world_failing
                 (demo_state [] []))) = 0%nat
  /\ List.map art_link
       (inbox_articles
          (fst (collect_news_from_naver demo_library demo_world_failing
                  (demo_state [] []))))
     = [py "https://example.com/1"].
Proof.
  assert (H : snd (snd (collect_news_from_naver demo_library
                          demo_world_failing (demo_state [] []))) = error)
    by (vm_compute; reflexivity).
  split; [exact H |]. split.
  - exact (proj1 (collect_error_keeps_served_keywords demo_library
                    demo_world_failing (demo_state [] []) H)).
  - vm_compute. reflexivity.
Defined.
